(** * Firecrawl tool node for n8n: a shallow embedding

    Source: [src/nodes/Firecrawl/FirecrawlTool.node.ts].

    The node builds one LangChain [DynamicStructuredTool] per configured
    operation.  Its handler forwards the agent's input to the Firecrawl
    HTTP API and reports the outcome to the host.  The embedding below
    follows the source function by function:

    - JavaScript values that travel as JSON ([IDataObject], the parsed
      response) are the inductive [json];
    - [JSON.stringify] and [JSON.parse] are modelled after ECMA-262
      (SerializeJSONProperty, QuoteJSONString, the JSON grammar);
    - the zod schemas are values of [zschema], validated by [zparse];
    - the host ([ISupplyDataFunctions]) is a record of oracles, and the
      calls that leave the node are recorded in a trace of [event]s;
    - code that awaits and throws runs in the monad [M], a trace-passing
      computation that ends in a value or in a thrown [js_error];
    - [new NodeOperationError(node, text)] is the constructor of
      n8n-workflow, which replaces a text that names a common error code
      (ECONNREFUSED, ENOENT, ...) by the fixed description of that code.

    Modelling conventions.
    - A string is a sequence of character codes below 256.
    - A number is an integer, printed in plain decimal notation, which is
      how Number::toString prints the integral Numbers in the safe range.
      Fractions, exponents, NaN, the infinities and negative zero are
      outside the model, and so is the rounding of IEEE-754 doubles: what
      is proved about the text of numbers (reading a response back from
      its text) holds for this fragment of JSON only.
    - An object is the list of its properties in property order (the
      order in which an engine puts index-like keys first is not
      modelled).  Lookup takes the last binding of a key, as a later
      definition of a key in an object literal replaces an earlier one;
      the objects the code builds never hold a key twice. *)

From Stdlib Require Import String Ascii List ZArith NArith Bool Arith Lia.
From Stdlib Require DecimalString DecimalZ DecimalPos DecimalFacts.
#[local] Set Warnings "-register-all".
Import ListNotations.
Local Open Scope list_scope.
Local Open Scope string_scope.

(* ===================================================================== *)
(** * Part I: definitions *)
(* ===================================================================== *)

(** ** Characters and strings *)

(** The double quote, line feed and reverse solidus characters. *)
Definition dquote : ascii := "034"%char.
Definition linefeed : ascii := "010"%char.
Definition backslash : ascii := "092"%char.

Definition dq : string := String dquote EmptyString.
Definition nl : string := String linefeed EmptyString.

(** [q s] is [s] between double quotes. *)
Definition q (s : string) : string := dq ++ s ++ dq.

(** [lines] joins the lines of a multi-line template literal. *)
Definition lines (ls : list string) : string := String.concat nl ls.


(** JavaScript's [a || b] on strings: the empty string is falsy. *)
Definition or_else (a b : string) : string :=
  if (a =? "")%string then b else a.

(** [strip_prefix p s]: [s] without its prefix [p]. *)
Fixpoint strip_prefix (p s : string) : option string :=
  match p with
  | EmptyString => Some s
  | String a p' =>
      match s with
      | String b s' => if (a =? b)%char then strip_prefix p' s' else None
      | EmptyString => None
      end
  end.

Definition starts_with (s p : string) : bool :=
  match strip_prefix p s with Some _ => true | None => false end.

(** [s.includes(sub)], computed: [sub] starts at some position of [s]. *)
Fixpoint includes (s sub : string) : bool :=
  if starts_with s sub then true
  else
    match s with
    | EmptyString => false
    | String _ r => includes r sub
    end.

(** [c.toUpperCase()] for a character code below 256: the letters a-z
    and the accented letters 224-254 (but the division sign, 247) move
    down by 32, and the sharp s, 223, becomes SS.  The two letters whose
    capital lies above 255 (181 and 255) are left as they are; like
    their capitals they are no ASCII character. *)
Definition toUpperCase_char (c : ascii) : string :=
  let n := N_of_ascii c in
  if ((97 <=? n) && (n <=? 122))%N then String (ascii_of_N (n - 32)) ""
  else if ((224 <=? n) && (n <=? 254) && negb (n =? 247))%N
       then String (ascii_of_N (n - 32)) ""
  else if (n =? 223)%N then "SS"
  else String c "".

Fixpoint toUpperCase (s : string) : string :=
  match s with
  | EmptyString => ""
  | String c r => toUpperCase_char c ++ toUpperCase r
  end.

(** ** JSON values *)

Inductive json : Type :=
| JNull
| JBool (b : bool)
| JNumber (n : Z)
| JString (s : string)
| JArray (items : list json)
| JObject (members : list (string * json)).

(** A JavaScript object that holds JSON data ([IDataObject]). *)
Definition obj : Type := list (string * json).

(** [o[k]]: the value of property [k], [None] for [undefined]. *)
Fixpoint obj_get (k : string) (o : obj) : option json :=
  match o with
  | [] => None
  | (k', v) :: rest =>
      match obj_get k rest with
      | Some w => Some w
      | None => if (k =? k')%string then Some v else None
      end
  end.

Definition obj_has (k : string) (o : obj) : bool :=
  match obj_get k o with Some _ => true | None => false end.

(** [o[k] = v] (CreateDataProperty): an existing property keeps its place
    and takes the new value, a new one goes last. *)
Definition obj_set (k : string) (v : json) (o : obj) : obj :=
  if obj_has k o
  then map (fun kv => if (fst kv =? k)%string then (fst kv, v) else kv) o
  else (o ++ [(k, v)])%list.

(** [{...target, ...source}]: the own properties of [source] are copied
    onto [target] in order. *)
Definition spread (target source : obj) : obj :=
  fold_left (fun acc kv => obj_set (fst kv) (snd kv) acc) source target.

(** No object of the value holds a key twice. *)
Fixpoint unique_keys (v : json) : Prop :=
  match v with
  | JArray items =>
      (fix all (l : list json) : Prop :=
         match l with
         | [] => True
         | x :: l' => unique_keys x /\ all l'
         end) items
  | JObject members =>
      NoDup (map fst members) /\
      (fix all (l : list (string * json)) : Prop :=
         match l with
         | [] => True
         | kv :: l' => unique_keys (snd kv) /\ all l'
         end) members
  | _ => True
  end.

(** ** JSON.stringify (ECMA-262, 25.5.2) *)

Definition hex_digit (n : N) : ascii :=
  ascii_of_N (if (n <? 10)%N then 48 + n else 87 + n).

(** UnicodeEscape of a code below 256: [\u00xx], lower case. *)
Definition unicode_escape (c : ascii) : string :=
  let n := N_of_ascii c in
  String backslash
    (String "u" (String "0" (String "0"
       (String (hex_digit (n / 16)) (String (hex_digit (n mod 16)) ""))))).

(** One character of QuoteJSONString. *)
Definition escape_char (c : ascii) : string :=
  if (c =? "008")%char then String backslash "b"
  else if (c =? "009")%char then String backslash "t"
  else if (c =? "010")%char then String backslash "n"
  else if (c =? "012")%char then String backslash "f"
  else if (c =? "013")%char then String backslash "r"
  else if (c =? dquote)%char then String backslash dq
  else if (c =? backslash)%char then String backslash (String backslash "")
  else if (N_of_ascii c <? 32)%N then unicode_escape c
  else String c "".

Fixpoint escape_string (s : string) : string :=
  match s with
  | EmptyString => ""
  | String c r => escape_char c ++ escape_string r
  end.

Definition QuoteJSONString (s : string) : string :=
  dq ++ escape_string s ++ dq.

(** Number::toString of an integral Number. *)
Definition Number_toString (n : Z) : string :=
  DecimalString.NilZero.string_of_int (Z.to_int n).

(** The tail shared by SerializeJSONArray and SerializeJSONObject: the
    already serialized parts between [opening] and [closing]. *)
Definition serialize_parts (opening closing gap stepback : string)
    (partial : list string) : string :=
  match partial with
  | [] => opening ++ closing
  | _ =>
      if (gap =? "")%string
      then opening ++ String.concat "," partial ++ closing
      else
        let indent := stepback ++ gap in
        opening ++ nl ++ indent
          ++ String.concat ("," ++ nl ++ indent) partial
          ++ nl ++ stepback ++ closing
  end.

(** SerializeJSONProperty for a value that is not [undefined]; [indent]
    is the current indentation, [gap] the indentation unit. *)
Fixpoint SerializeJSONProperty (gap indent : string) (v : json) : string :=
  match v with
  | JNull => "null"
  | JBool true => "true"
  | JBool false => "false"
  | JNumber n => Number_toString n
  | JString s => QuoteJSONString s
  | JArray items =>
      serialize_parts "[" "]" gap indent
        (map (SerializeJSONProperty gap (indent ++ gap)) items)
  | JObject members =>
      serialize_parts "{" "}" gap indent
        (map (fun kv =>
                match kv with
                | (k, x) =>
                    QuoteJSONString k
                      ++ (if (gap =? "")%string then ":" else ": ")
                      ++ SerializeJSONProperty gap (indent ++ gap) x
                end) members)
  end.

Fixpoint spaces (n : nat) : string :=
  match n with
  | O => ""
  | S n' => String " " (spaces n')
  end.

(** [JSON.stringify(v, null, space)] with a numeric [space]: the gap is
    [min space 10] spaces. *)
Definition JSON_stringify_space (v : json) (space : nat) : string :=
  SerializeJSONProperty (spaces (Nat.min space 10)) "" v.

(** [JSON.stringify(v)]. *)
Definition JSON_stringify (v : json) : string :=
  SerializeJSONProperty "" "" v.

(** The compact JSON text of a value, written down from the JSON grammar
    and independently of the serializer above: no white space, items and
    members separated by commas, a colon between key and value. *)
Fixpoint json_text (v : json) : string :=
  match v with
  | JNull => "null"
  | JBool true => "true"
  | JBool false => "false"
  | JNumber n => Number_toString n
  | JString s => QuoteJSONString s
  | JArray items => "[" ++ String.concat "," (map json_text items) ++ "]"
  | JObject members =>
      "{"
        ++ String.concat ","
             (map (fun kv =>
                     match kv with
                     | (k, x) => QuoteJSONString k ++ ":" ++ json_text x
                     end) members)
        ++ "}"
  end.

(** ** JSON.parse (ECMA-262, 25.5.1; the grammar of ECMA-404) *)

Definition is_ws (c : ascii) : bool :=
  (c =? " ")%char || (c =? "009")%char || (c =? "010")%char
  || (c =? "013")%char.

Fixpoint skip_ws (s : string) : string :=
  match s with
  | String c r => if is_ws c then skip_ws r else s
  | EmptyString => s
  end.

Definition is_digit (c : ascii) : bool :=
  let n := N_of_ascii c in ((48 <=? n) && (n <=? 57))%N.

(** The longest prefix of digits and what follows it. *)
Fixpoint span_digits (s : string) : string * string :=
  match s with
  | String c r =>
      if is_digit c
      then let (ds, rest) := span_digits r in (String c ds, rest)
      else ("", s)
  | EmptyString => ("", "")
  end.

(** A number token may not be followed by a fraction or an exponent here:
    those denote Numbers outside the model. *)
Definition integral_end (s : string) : bool :=
  match s with
  | String c _ =>
      negb ((c =? ".")%char || (c =? "e")%char || (c =? "E")%char)
  | EmptyString => true
  end.

(** The digits of a JSON number: a lone zero, or no leading zero. *)
Definition json_digits (ds : string) : bool :=
  match ds with
  | EmptyString => false
  | String c EmptyString => true
  | String c _ => negb (c =? "0")%char
  end.

(** The digits of a number token and its value. *)
Definition parse_digits (negative : bool) (s : string) : option (Z * string) :=
  let (ds, rest) := span_digits s in
  if json_digits ds && integral_end rest then
    match DecimalString.NilEmpty.uint_of_string ds with
    | Some u =>
        Some (Z.of_int (if negative then Decimal.Neg u else Decimal.Pos u),
              rest)
    | None => None
    end
  else None.

Definition parse_number (s : string) : option (Z * string) :=
  match s with
  | String c r =>
      if (c =? "-")%char then parse_digits true r else parse_digits false s
  | EmptyString => None
  end.

Definition hex_value (c : ascii) : option N :=
  let n := N_of_ascii c in
  if ((48 <=? n) && (n <=? 57))%N then Some (n - 48)%N
  else if ((97 <=? n) && (n <=? 102))%N then Some (n - 87)%N
  else if ((65 <=? n) && (n <=? 70))%N then Some (n - 55)%N
  else None.

Definition hex4 (a b c d : ascii) : option N :=
  match hex_value a, hex_value b, hex_value c, hex_value d with
  | Some x, Some y, Some z, Some w =>
      Some (((x * 16 + y) * 16 + z) * 16 + w)%N
  | _, _, _, _ => None
  end.

(** The character a single-character escape stands for. *)
Definition unescape (e : ascii) : option ascii :=
  if (e =? dquote)%char then Some dquote
  else if (e =? backslash)%char then Some backslash
  else if (e =? "/")%char then Some "/"%char
  else if (e =? "b")%char then Some "008"%char
  else if (e =? "f")%char then Some "012"%char
  else if (e =? "n")%char then Some "010"%char
  else if (e =? "r")%char then Some "013"%char
  else if (e =? "t")%char then Some "009"%char
  else None.

(** The characters of a string literal after its opening quote, up to
    and including the closing quote. *)
Fixpoint parse_chars (s : string) : option (string * string) :=
  match s with
  | EmptyString => None
  | String c r =>
      if (c =? dquote)%char then Some ("", r)
      else if (c =? backslash)%char then
        match r with
        | EmptyString => None
        | String e r1 =>
            if (e =? "u")%char then
              match r1 with
              | String h1 (String h2 (String h3 (String h4 r2))) =>
                  match hex4 h1 h2 h3 h4 with
                  | Some n =>
                      if (n <? 256)%N then
                        match parse_chars r2 with
                        | Some (str, rest) =>
                            Some (String (ascii_of_N n) str, rest)
                        | None => None
                        end
                      else None
                  | None => None
                  end
              | _ => None
              end
            else
              match unescape e with
              | Some ch =>
                  match parse_chars r1 with
                  | Some (str, rest) => Some (String ch str, rest)
                  | None => None
                  end
              | None => None
              end
        end
      else if (N_of_ascii c <? 32)%N then None
      else
        match parse_chars r with
        | Some (str, rest) => Some (String c str, rest)
        | None => None
        end
  end.

Definition parse_literal (s : string) : option (json * string) :=
  match strip_prefix "null" s with
  | Some r => Some (JNull, r)
  | None =>
      match strip_prefix "true" s with
      | Some r => Some (JBool true, r)
      | None =>
          match strip_prefix "false" s with
          | Some r => Some (JBool false, r)
          | None => None
          end
      end
  end.

(** The object a list of parsed members denotes: each member is defined
    in turn, so a repeated key keeps its first place and its last
    value. *)
Definition obj_of_members (ms : list (string * json)) : obj :=
  spread [] ms.

(** Recursive descent over the JSON grammar.  [fuel] bounds the nesting
    of calls; [JSON_parse] supplies more than any text needs. *)
Fixpoint parse_value (fuel : nat) (s : string) : option (json * string) :=
  match fuel with
  | O => None
  | S fuel' =>
      match skip_ws s with
      | EmptyString => None
      | String c r =>
          if (c =? "[")%char then
            match skip_ws r with
            | EmptyString => None
            | String c2 r2 =>
                if (c2 =? "]")%char then Some (JArray [], r2)
                else
                  match parse_elements fuel' r with
                  | Some (items, rest) => Some (JArray items, rest)
                  | None => None
                  end
            end
          else if (c =? "{")%char then
            match skip_ws r with
            | EmptyString => None
            | String c2 r2 =>
                if (c2 =? "}")%char then Some (JObject [], r2)
                else
                  match parse_members fuel' r with
                  | Some (ms, rest) => Some (JObject (obj_of_members ms), rest)
                  | None => None
                  end
            end
          else if (c =? dquote)%char then
            match parse_chars r with
            | Some (str, rest) => Some (JString str, rest)
            | None => None
            end
          else if (c =? "-")%char || is_digit c then
            match parse_number (String c r) with
            | Some (n, rest) => Some (JNumber n, rest)
            | None => None
            end
          else parse_literal (String c r)
      end
  end

with parse_elements (fuel : nat) (s : string)
    : option (list json * string) :=
  match fuel with
  | O => None
  | S fuel' =>
      match parse_value fuel' s with
      | None => None
      | Some (v, r) =>
          match skip_ws r with
          | EmptyString => None
          | String c r' =>
              if (c =? ",")%char then
                match parse_elements fuel' r' with
                | Some (vs, rest) => Some (v :: vs, rest)
                | None => None
                end
              else if (c =? "]")%char then Some ([v], r')
              else None
          end
      end
  end

with parse_members (fuel : nat) (s : string)
    : option (list (string * json) * string) :=
  match fuel with
  | O => None
  | S fuel' =>
      match skip_ws s with
      | EmptyString => None
      | String c0 r0 =>
          if (c0 =? dquote)%char then
            match parse_chars r0 with
            | None => None
            | Some (k, r1) =>
                match skip_ws r1 with
                | EmptyString => None
                | String c1 r2 =>
                    if (c1 =? ":")%char then
                      match parse_value fuel' r2 with
                      | None => None
                      | Some (v, r3) =>
                          match skip_ws r3 with
                          | EmptyString => None
                          | String c r' =>
                              if (c =? ",")%char then
                                match parse_members fuel' r' with
                                | Some (ms, rest) => Some ((k, v) :: ms, rest)
                                | None => None
                                end
                              else if (c =? "}")%char then Some ([(k, v)], r')
                              else None
                          end
                      end
                    else None
                end
            end
          else None
      end
  end.

(** [JSON.parse(text)]: one value, with nothing but white space after it;
    [None] stands for the SyntaxError. *)
Definition JSON_parse (text : string) : option json :=
  match parse_value (S (String.length text)) text with
  | Some (v, rest) =>
      match skip_ws rest with
      | EmptyString => Some v
      | String _ _ => None
      end
  | None => None
  end.


(** ** Measures used to reason about the serializer and the parser *)

Fixpoint all_ws (s : string) : bool :=
  match s with
  | EmptyString => true
  | String c r => is_ws c && all_ws r
  end.

(** The line break SerializeJSONArray and SerializeJSONObject put before
    an item at indentation [indent]; nothing when the gap is empty. *)
Definition break (gap indent : string) : string :=
  if (gap =? "")%string then "" else nl ++ indent.

(** What may follow a number token: not a digit, a fraction or an
    exponent. *)
Definition number_boundary (rest : string) : bool :=
  match rest with
  | EmptyString => true
  | String c _ => negb (is_digit c) && integral_end rest
  end.

(** A bound on the fuel that parsing the text of a value takes. *)
Fixpoint json_size (v : json) : nat :=
  match v with
  | JArray items => S (fold_right (fun x n => S (json_size x + n)) 0 items)
  | JObject members =>
      S (fold_right
           (fun kv n => match kv with (_, x) => S (json_size x + n) end)
           0 members)
  | _ => 1
  end.

(** [reads_back gap v]: the parser reads the text of [v] back, at every
    indentation, before any text at which a number may end. *)
Definition reads_back (gap : string) (v : json) : Prop :=
  forall indent rest fuel,
    all_ws indent = true ->
    unique_keys v ->
    json_size v <= fuel ->
    number_boundary rest = true ->
    parse_value fuel (SerializeJSONProperty gap indent v ++ rest)
    = Some (v, rest).

(** ** zod schemas *)

(** The schema constructors the node uses.  [ZDescribe] is a schema with
    the description that [.describe] attaches to it. *)
Inductive zschema : Type :=
| ZString (min_length : option nat)
| ZNumber
| ZBoolean
| ZEnum (values : list string)
| ZArray (element : zschema)
| ZObject (shape : list (string * zschema))
| ZOptional (inner : zschema)
| ZDescribe (inner : zschema) (description : string).

Module z.
Definition string : zschema := ZString None.
Definition number : zschema := ZNumber.
Definition boolean : zschema := ZBoolean.
Definition enum (values : list String.string) : zschema := ZEnum values.
Definition array (element : zschema) : zschema := ZArray element.
Definition object (shape : list (String.string * zschema)) : zschema :=
  ZObject shape.

(** [s.min(n)] on a string schema. *)
Definition min (n : nat) (s : zschema) : zschema :=
  match s with
  | ZString _ => ZString (Some n)
  | _ => s
  end.

Definition optional (s : zschema) : zschema := ZOptional s.

Definition describe (d : String.string) (s : zschema) : zschema :=
  ZDescribe s d.

(** [s.partial()]: every field of the object becomes optional. *)
Definition partial (s : zschema) : zschema :=
  match s with
  | ZObject shape =>
      ZObject (map (fun kf => (fst kf, ZOptional (snd kf))) shape)
  | _ => s
  end.
End z.

(** [s.isOptional()]: the schema accepts [undefined]. *)
Fixpoint is_optional (s : zschema) : bool :=
  match s with
  | ZOptional _ => true
  | ZDescribe inner _ => is_optional inner
  | _ => false
  end.

Fixpoint all_some {A : Type} (l : list (option A)) : option (list A) :=
  match l with
  | [] => Some []
  | Some x :: l' =>
      match all_some l' with
      | Some xs => Some (x :: xs)
      | None => None
      end
  | None :: _ => None
  end.

Definition string_in (s : string) (l : list string) : bool :=
  existsb (String.eqb s) l.

(** [s.safeParse(v)] for a defined [v]: the parsed data, or [None] when
    validation reports an issue.  An object schema keeps the keys of its
    shape, in shape order, and strips the others (zod's default). *)
Fixpoint zparse (s : zschema) (v : json) {struct s} : option json :=
  match s with
  | ZString min_length =>
      match v with
      | JString str =>
          match min_length with
          | Some n => if (n <=? String.length str)%nat then Some v else None
          | None => Some v
          end
      | _ => None
      end
  | ZNumber => match v with JNumber _ => Some v | _ => None end
  | ZBoolean => match v with JBool _ => Some v | _ => None end
  | ZEnum values =>
      match v with
      | JString str => if string_in str values then Some v else None
      | _ => None
      end
  | ZArray element =>
      match v with
      | JArray items =>
          match all_some (map (zparse element) items) with
          | Some items' => Some (JArray items')
          | None => None
          end
      | _ => None
      end
  | ZObject shape =>
      match v with
      | JObject o =>
          let fields :=
            (fix fields (sh : list (string * zschema)) : option obj :=
               match sh with
               | [] => Some []
               | (k, fs) :: sh' =>
                   match obj_get k o with
                   | Some x =>
                       match zparse fs x, fields sh' with
                       | Some x', Some out => Some ((k, x') :: out)
                       | _, _ => None
                       end
                   | None => if is_optional fs then fields sh' else None
                   end
               end) in
          match fields shape with
          | Some out => Some (JObject out)
          | None => None
          end
      | _ => None
      end
  | ZOptional inner => zparse inner v
  | ZDescribe inner _ => zparse inner v
  end.

(** The shape of an object schema under its wrappers. *)
Fixpoint zshape (s : zschema) : list (string * zschema) :=
  match s with
  | ZObject shape => shape
  | ZOptional inner => zshape inner
  | ZDescribe inner _ => zshape inner
  | _ => []
  end.

Fixpoint assoc {A : Type} (k : string) (l : list (string * A)) : option A :=
  match l with
  | [] => None
  | (k', a) :: l' => if (k =? k')%string then Some a else assoc k l'
  end.

(** The schema of field [k] of an object schema. *)
Definition zfield (k : string) (s : zschema) : option zschema :=
  assoc k (zshape s).

(** The type a schema declares: the schema without its descriptions and
    without the [optional] wrappers around it. *)
Fixpoint ztype (s : zschema) : zschema :=
  match s with
  | ZArray element => ZArray (ztype element)
  | ZObject shape =>
      ZObject
        ((fix go (sh : list (string * zschema)) : list (string * zschema) :=
            match sh with
            | [] => []
            | (k, fs) :: sh' =>
                (k, if is_optional fs then ZOptional (ztype fs) else ztype fs)
                  :: go sh'
            end) shape)
  | ZOptional inner => ztype inner
  | ZDescribe inner _ => ztype inner
  | atom => atom
  end.

(** The string schemas inside a schema, each with the path of field
    names that leads to it and its minimum length. *)
Fixpoint string_fields (path : list string) (s : zschema)
    : list (list string * option nat) :=
  match s with
  | ZString min_length => [(path, min_length)]
  | ZArray element => string_fields path element
  | ZObject shape =>
      (fix go (sh : list (string * zschema))
         : list (list string * option nat) :=
         match sh with
         | [] => []
         | (k, fs) :: sh' => (string_fields (path ++ [k])%list fs ++ go sh')%list
         end) shape
  | ZOptional inner => string_fields path inner
  | ZDescribe inner _ => string_fields path inner
  | _ => []
  end.

(** ** The host and the effects of the node *)

Record INode : Type := { node_name : string }.

(** What a [catch] clause can receive: an instance of n8n-workflow's
    NodeOperationError, with its node and the [message] it ended up
    with; any other instance of Error, with its [message]; or a thrown
    value that is not an Error, with its [String(value)]. *)
Inductive js_error : Type :=
| NodeOperationError (node : INode) (message : string)
| OtherError (message : string)
| ThrownValue (rendering : string).

(** [error instanceof NodeOperationError]. *)
Definition instanceof_NodeOperationError (e : js_error) : bool :=
  match e with
  | NodeOperationError _ _ => true
  | _ => false
  end.

(** *** The constructor of NodeOperationError (n8n-workflow)

    [new NodeOperationError(node, text)] does not keep every text it is
    given: the constructor passes the message through
    [setDescriptiveErrorMessage], which looks for the name of a common
    error in the upper-cased message and, when it finds one, replaces the
    message by the description of the first one found, in the order of
    the table [COMMON_ERRORS].  (The original text then goes to the
    [messages] array of the error, which is not modelled.) *)

Definition COMMON_ERRORS : list (string * string) :=
  [ ("ECONNREFUSED",
     "The service refused the connection - perhaps it is offline");
    ("ECONNRESET",
     "The connection to the server was closed unexpectedly, perhaps it is offline. You can retry the request immediately or wait and retry later.");
    ("ENOTFOUND",
     "The connection cannot be established, this usually occurs due to an incorrect host (domain) value");
    ("ETIMEDOUT",
     "The connection timed out, consider setting the 'Retry on Fail' option in the node settings");
    ("ERRADDRINUSE",
     "The port is already occupied by some other application, if possible change the port or kill the application that is using it");
    ("EADDRNOTAVAIL",
     "The address is not available, ensure that you have the right IP address");
    ("ECONNABORTED", "The connection was aborted, perhaps the server is offline");
    ("EHOSTUNREACH", "The host is unreachable, perhaps the server is offline");
    ("EAI_AGAIN",
     "The DNS server returned an error, perhaps the server is offline");
    ("ENOENT", "The file or directory does not exist");
    ("EISDIR", "The file path was expected but the given path is a directory");
    ("ENOTDIR", "The directory path was expected but the given path is a file");
    ("EACCES",
     "Forbidden by access permissions, make sure you have the right permissions");
    ("EEXIST", "The file or directory already exists");
    ("EPERM",
     "Operation not permitted, make sure you have the right permissions");
    ("GETADDRINFO", "The server closed the connection unexpectedly") ].

(** [message.toUpperCase().includes(errorCode.toUpperCase())]. *)
Definition mentions (message errorCode : string) : bool :=
  includes (toUpperCase message) (toUpperCase errorCode).

Definition setDescriptiveErrorMessage (message : string) : string :=
  match find (fun entry => mentions message (fst entry)) COMMON_ERRORS with
  | Some entry => snd entry
  | None => message
  end.

(** [new NodeOperationError(node, text)]. *)
Definition new_NodeOperationError (node : INode) (text : string) : js_error :=
  NodeOperationError node (setDescriptiveErrorMessage text).

(** A text that mentions no common error, and so is kept as the
    message. *)
Definition free_of_common_errors (text : string) : Prop :=
  Forall (fun entry => mentions text (fst entry) = false) COMMON_ERRORS.

Inductive result (A : Type) : Type :=
| Ok (a : A)
| Throw (e : js_error).
Arguments Ok {A} a.
Arguments Throw {A} e.

Inductive NodeConnectionType : Type := AiTool | Main.

(** The decrypted [firecrawlApi] credentials; [baseUrl] may be unset. *)
Record credentials : Type := {
  baseUrl : option string;
  apiKey : string
}.

(** The options object passed to [helpers.httpRequest]. *)
Record http_request : Type := {
  method : string;
  url : string;
  headers : list (string * string);
  body : obj;
  json_option : bool
}.

Inductive output_data : Type :=
| OutputItems (data : json)
| OutputError (e : js_error).

(** The calls of the node that reach the host's tracking channels or the
    network, in the order they are made. *)
Inductive event : Type :=
| AddInputData (connection : NodeConnectionType) (data : json)
| HttpRequest (options : http_request)
| AddOutputData (connection : NodeConnectionType) (index : nat)
    (data : output_data).

(** The [ISupplyDataFunctions] context: what the host answers.  The run
    index that [addInputData] returns is the host's, computed from what
    it has recorded so far. *)
Record host : Type := {
  getNodeParameter : string -> nat -> string -> string;
  getNode : INode;
  getCredentials : string -> result credentials;
  httpRequest : http_request -> result json;
  runIndex : list event -> nat
}.

(** Computations that pass the trace along and end in a value or in a
    thrown error. *)
Definition M (A : Type) : Type := list event -> result A * list event.

Definition ret {A : Type} (a : A) : M A := fun t => (Ok a, t).

Definition throw {A : Type} (e : js_error) : M A := fun t => (Throw e, t).

Definition bind {A B : Type} (m : M A) (k : A -> M B) : M B :=
  fun t =>
    match m t with
    | (Ok a, t') => k a t'
    | (Throw e, t') => (Throw e, t')
    end.

(** [try { m } catch (error) { handler error }]. *)
Definition try_catch {A : Type} (m : M A) (handler : js_error -> M A) : M A :=
  fun t =>
    match m t with
    | (Ok a, t') => (Ok a, t')
    | (Throw e, t') => handler e t'
    end.

Definition emit (e : event) : M unit := fun t => (Ok tt, (t ++ [e])%list).

(** Awaiting a host call that resolves or rejects. *)
Definition await {A : Type} (r : result A) : M A := fun t => (r, t).

Notation "x <- m ;; k" := (bind m (fun x => k))
  (at level 61, m at next level, right associativity).
Notation "m ;; k" := (bind m (fun _ => k))
  (at level 61, right associativity).

(** [context.helpers.httpRequest(options)]. *)
Definition helpers_httpRequest (context : host) (options : http_request)
    : M json :=
  emit (HttpRequest options) ;;
  await (httpRequest context options).

(** [this.addInputData(connection, data)], which returns [{ index }]. *)
Definition addInputData (this : host) (connection : NodeConnectionType)
    (data : json) : M nat :=
  fun t => (Ok (runIndex this t), (t ++ [AddInputData connection data])%list).

(** [void this.addOutputData(connection, index, data)]. *)
Definition addOutputData (connection : NodeConnectionType) (index : nat)
    (data : output_data) : M unit :=
  emit (AddOutputData connection index data).

(** The requests among the events of a trace. *)
Definition http_requests (es : list event) : list http_request :=
  flat_map (fun e => match e with HttpRequest r => [r] | _ => [] end) es.

(** ** makeFirecrawlRequest (lines 20-45) *)

Definition default_baseUrl : string := "https://api.firecrawl.dev/v2".

(** [(credentials.baseUrl as string) || 'https://api.firecrawl.dev/v2']. *)
Definition resolve_baseUrl (c : credentials) : string :=
  match baseUrl c with
  | Some u => or_else u default_baseUrl
  | None => default_baseUrl
  end.

(** [{ integration: 'n8n-tool', ...body }]. *)
Definition request_body (body : obj) : obj :=
  spread [("integration", JString "n8n-tool")] body.

Definition makeFirecrawlRequest (context : host) (operation : string)
    (body : obj) : M json :=
  credentials <- await (getCredentials context "firecrawlApi") ;;
  let baseUrl := resolve_baseUrl credentials in
  let apiKey := apiKey credentials in
  response <-
    helpers_httpRequest context
      {| method := "POST";
         url := baseUrl ++ "/" ++ operation;
         headers :=
           [ ("Authorization", "Bearer " ++ apiKey);
             ("Content-Type", "application/json");
             ("Accept", "application/json") ];
         body := request_body body;
         json_option := true |} ;;
  ret response.

(** ** createToolHandler (lines 167-189) *)

(** [[[{ json: data }]]]. *)
Definition items_of (data : json) : json :=
  JArray [JArray [JObject [("json", data)]]].

(** [error instanceof Error ? error.message : String(error)], reached
    only for an error that is not a NodeOperationError. *)
Definition errorMessage_of (error : js_error) : string :=
  match error with
  | NodeOperationError _ message => message
  | OtherError message => message
  | ThrownValue rendering => rendering
  end.

Definition createToolHandler (this : host) (node : INode) (op : string)
    (input : obj) : M string :=
  index <- addInputData this AiTool (items_of (JObject input)) ;;
  try_catch
    (response <- makeFirecrawlRequest this op input ;;
     let outputData := JObject [("response", response)] in
     addOutputData AiTool index (OutputItems (items_of outputData)) ;;
     ret (JSON_stringify_space response 2))
    (fun error =>
       if instanceof_NodeOperationError error then throw error
       else
         let errorMessage := errorMessage_of error in
         let nodeError :=
           new_NodeOperationError node
             ("Firecrawl API error for " ++ op ++ ": " ++ errorMessage
                ++ ". Input: " ++ JSON_stringify (JObject input)) in
         addOutputData AiTool index (OutputError nodeError) ;;
         throw nodeError).

(** ** supplyData (lines 155-418) *)

(** The tool handed to the agent ([DynamicStructuredTool]'s fields). *)
Record DynamicStructuredTool : Type := {
  name : string;
  description : string;
  schema : zschema;
  func : obj -> M string
}.

Record SupplyData : Type := { response : DynamicStructuredTool }.

(** Method chaining: [s |> f] is [s.f()]. *)
Local Notation "s |> f" := (f s) (at level 45, left associativity, only parsing).

(** The built-in descriptions (template literals of the source). *)

Definition scrape_description : string :=
  lines [
    "Scrape content from a single URL with advanced options. ";
    "This is the most powerful, fastest and most reliable scraper tool, if available you should always default to using this tool for any web scraping needs.";
    "";
    "**Best for:** Single page content extraction, when you know exactly which page contains the information.";
    "**Not recommended for:** Multiple pages (use crawl), unknown page (use search).";
    "**Common mistakes:** Using scrape for a list of URLs (use crawl instead for multiple URLs).";
    "**Prompt Example:** " ++ q "Get the content of the page at https://example.com.";
    "**Usage Example:**";
    "```json";
    "{";
    "  " ++ q "url" ++ ": " ++ q "https://example.com" ++ ",";
    "  " ++ q "formats" ++ ": [" ++ q "markdown" ++ "],";
    "  " ++ q "onlyMainContent" ++ ": true";
    "}";
    "```";
    "**Returns:** Markdown, HTML, or other formats as specified." ].

Definition map_description : string :=
  lines [
    "Map a website to discover all indexed URLs on the site.";
    "";
    "**Best for:** Discovering URLs on a website before deciding what to scrape; finding specific sections of a website.";
    "**Not recommended for:** When you already know which specific URL you need (use scrape); when you need the content of the pages (use scrape after mapping).";
    "**Common mistakes:** Using crawl to discover URLs instead of map.";
    "**Prompt Example:** " ++ q "List all URLs on example.com.";
    "**Usage Example:**";
    "```json";
    "{";
    "  " ++ q "url" ++ ": " ++ q "https://example.com";
    "}";
    "```";
    "**Returns:** Array of URLs found on the site." ].

Definition search_description : string :=
  lines [
    "Search the web and optionally extract content from search results. This is the most powerful web search tool available, and if available you should always default to using this tool for any web search needs.";
    "";
    "**Best for:** Finding specific information across multiple websites, when you don't know which website has the information; when you need the most relevant content for a query.";
    "**Not recommended for:** When you already know which website to scrape (use scrape); when you need comprehensive coverage of a single website (use map or crawl).";
    "**Common mistakes:** Using crawl or map for open-ended questions (use search instead).";
    "**Scrape Options:** Only use scrapeOptions when you think it is absolutely necessary. When you do so default to a lower limit to avoid timeouts, 5 or lower.";
    "**Optimal Workflow:** Search first without formats, then after fetching the results, use the scrape tool to get the content of the relevant page(s) that you want to scrape.";
    "**Prompt Example:** " ++ q "Find the latest research papers on AI published in 2023.";
    "**Usage Example without formats (Preferred):**";
    "```json";
    "{";
    "  " ++ q "query" ++ ": " ++ q "top AI companies" ++ ",";
    "  " ++ q "limit" ++ ": 5";
    "}";
    "```";
    "**Usage Example with formats:**";
    "```json";
    "{";
    "  " ++ q "query" ++ ": " ++ q "latest AI research papers 2023" ++ ",";
    "  " ++ q "limit" ++ ": 5,";
    "  " ++ q "scrapeOptions" ++ ": {";
    "    " ++ q "formats" ++ ": [" ++ q "markdown" ++ "],";
    "    " ++ q "onlyMainContent" ++ ": true";
    "  }";
    "}";
    "```";
    "**Returns:** Array of search results (with optional scraped content)." ].

Definition crawl_description : string :=
  lines [
    "Starts a crawl job on a website and extracts content from all pages.";
    "";
    "**Best for:** Extracting content from multiple related pages, when you need comprehensive coverage.";
    "**Not recommended for:** Extracting content from a single page (use scrape); when you need fast results (crawling can be slow).";
    "**Warning:** Crawl responses can be very large and may exceed token limits. Limit the crawl depth and number of pages.";
    "**Common mistakes:** Setting limit or maxDiscoveryDepth too high (causes token overflow) or too low (causes missing pages); using crawl for a single page (use scrape instead). Using a /* wildcard is not recommended.";
    "**Prompt Example:** " ++ q "Get all blog posts from the first two levels of example.com/blog.";
    "**Usage Example:**";
    "```json";
    "{";
    "  " ++ q "url" ++ ": " ++ q "https://example.com/blog" ++ ",";
    "  " ++ q "maxDiscoveryDepth" ++ ": 5,";
    "  " ++ q "limit" ++ ": 20,";
    "  " ++ q "allowExternalLinks" ++ ": false,";
    "  " ++ q "deduplicateSimilarURLs" ++ ": true,";
    "  " ++ q "sitemap" ++ ": " ++ q "include";
    "}";
    "```";
    "**Returns:** Operation ID for status checking." ].

(** The parameter schemas. *)

Definition formats_enum : zschema :=
  z.enum ["markdown"; "html"; "rawHtml"; "links"; "screenshot"].

Definition scrape_schema : zschema :=
  z.object
    [ ("url", z.string |> z.describe "The URL to scrape");
      ("formats",
       z.array formats_enum |> z.optional
       |> z.describe
            ("Output formats to return (default: [" ++ q "markdown" ++ "])"));
      ("onlyMainContent",
       z.boolean |> z.optional
       |> z.describe
            "Only return the main content of the page excluding headers, navs, footers, etc.");
      ("includeTags",
       z.array z.string |> z.optional
       |> z.describe
            "Only include tags, classes and ids from the page in the final output");
      ("excludeTags",
       z.array z.string |> z.optional
       |> z.describe "Tags, classes and ids to remove from the output");
      ("waitFor",
       z.number |> z.optional
       |> z.describe
            "Wait x amount of milliseconds for the page to load to fetch content");
      ("mobile",
       z.boolean |> z.optional
       |> z.describe "Emulate a mobile device to load the page") ].

Definition map_schema : zschema :=
  z.object
    [ ("url", z.string |> z.describe "The base URL to start mapping from");
      ("search",
       z.string |> z.optional
       |> z.describe "Search query to filter discovered URLs");
      ("sitemap",
       z.enum ["include"; "skip"; "only"] |> z.optional
       |> z.describe "How to use sitemap: include (default), skip, or only");
      ("includeSubdomains",
       z.boolean |> z.optional
       |> z.describe "Include subdomains of the website");
      ("limit",
       z.number |> z.optional
       |> z.describe "Maximum number of links to return");
      ("ignoreQueryParameters",
       z.boolean |> z.optional
       |> z.describe "Ignore query parameters when mapping URLs") ].

(** The object literal passed to [z.object] for [scrapeOptions], as it is
    written in the search schema (lines 321-330). *)
Definition search_scrapeOptions_object : zschema :=
  z.object
    [ ("formats", z.array formats_enum |> z.optional);
      ("onlyMainContent", z.boolean |> z.optional);
      ("includeTags", z.array z.string |> z.optional);
      ("excludeTags", z.array z.string |> z.optional);
      ("waitFor", z.number |> z.optional);
      ("mobile", z.boolean |> z.optional) ].

Definition search_schema : zschema :=
  z.object
    [ ("query", z.string |> z.min 1 |> z.describe "The search query string");
      ("limit",
       z.number |> z.optional
       |> z.describe "Maximum number of results to return");
      ("tbs", z.string |> z.optional |> z.describe "Time-based search parameter");
      ("filter",
       z.string |> z.optional |> z.describe "Filter parameter for search");
      ("location",
       z.string |> z.optional |> z.describe "Location for search results");
      ("scrapeOptions",
       search_scrapeOptions_object |> z.partial |> z.optional
       |> z.describe "Options for scraping each search result") ].

(** The same literal as it is written in the crawl schema (lines
    393-402). *)
Definition crawl_scrapeOptions_object : zschema :=
  z.object
    [ ("formats",
       z.array (z.enum ["markdown"; "html"; "rawHtml"; "links"; "screenshot"])
       |> z.optional);
      ("onlyMainContent", z.boolean |> z.optional);
      ("includeTags", z.array z.string |> z.optional);
      ("excludeTags", z.array z.string |> z.optional);
      ("waitFor", z.number |> z.optional);
      ("mobile", z.boolean |> z.optional) ].

Definition crawl_schema : zschema :=
  z.object
    [ ("url", z.string |> z.describe "The base URL to start crawling from");
      ("excludePaths",
       z.array z.string |> z.optional
       |> z.describe
            ("URL path patterns to exclude (e.g., [" ++ q "/admin/*" ++ "])"));
      ("includePaths",
       z.array z.string |> z.optional
       |> z.describe
            ("URL path patterns to include (e.g., [" ++ q "/blog/*" ++ "])"));
      ("maxDiscoveryDepth",
       z.number |> z.optional
       |> z.describe "Maximum depth to crawl relative to the start URL");
      ("sitemap",
       z.enum ["skip"; "include"; "only"] |> z.optional
       |> z.describe "How to use sitemap");
      ("limit",
       z.number |> z.optional
       |> z.describe "Maximum number of pages to crawl");
      ("allowExternalLinks",
       z.boolean |> z.optional
       |> z.describe "Allow following links to external domains");
      ("allowSubdomains",
       z.boolean |> z.optional |> z.describe "Allow crawling subdomains");
      ("crawlEntireDomain",
       z.boolean |> z.optional |> z.describe "Crawl the entire domain");
      ("delay",
       z.number |> z.optional
       |> z.describe "Delay between requests in milliseconds");
      ("maxConcurrency",
       z.number |> z.optional |> z.describe "Maximum concurrent requests");
      ("deduplicateSimilarURLs",
       z.boolean |> z.optional |> z.describe "Deduplicate similar URLs");
      ("ignoreQueryParameters",
       z.boolean |> z.optional
       |> z.describe "Ignore query parameters when crawling");
      ("scrapeOptions",
       crawl_scrapeOptions_object |> z.partial |> z.optional
       |> z.describe "Options for scraping each page during the crawl") ].

Definition supplyData (this : host) (itemIndex : nat) : M SupplyData :=
  let operation := getNodeParameter this "toolType" itemIndex "scrape" in
  let customDescription := getNodeParameter this "description" itemIndex "" in
  let node := getNode this in
  let createToolHandler := createToolHandler this node in
  let toolName := "firecrawl_" ++ operation in
  if (operation =? "scrape")%string then
    ret {| response :=
             {| name := toolName;
                description := or_else customDescription scrape_description;
                schema := scrape_schema;
                func := createToolHandler "scrape" |} |}
  else if (operation =? "map")%string then
    ret {| response :=
             {| name := toolName;
                description := or_else customDescription map_description;
                schema := map_schema;
                func := createToolHandler "map" |} |}
  else if (operation =? "search")%string then
    ret {| response :=
             {| name := toolName;
                description := or_else customDescription search_description;
                schema := search_schema;
                func := createToolHandler "search" |} |}
  else if (operation =? "crawl")%string then
    ret {| response :=
             {| name := toolName;
                description := or_else customDescription crawl_description;
                schema := crawl_schema;
                func := createToolHandler "crawl" |} |}
  else
    throw (new_NodeOperationError node ("Unknown operation: " ++ operation)).

(** The four values of the [toolType] option (lines 103-128). *)
Definition operations : list string := ["scrape"; "map"; "search"; "crawl"].

Definition schema_of (operation : string) : zschema :=
  if (operation =? "scrape")%string then scrape_schema
  else if (operation =? "map")%string then map_schema
  else if (operation =? "search")%string then search_schema
  else crawl_schema.

Definition template_of (operation : string) : string :=
  if (operation =? "scrape")%string then scrape_description
  else if (operation =? "map")%string then map_description
  else if (operation =? "search")%string then search_description
  else crawl_description.

(** The fields of the scrape options. *)
Definition scrape_option_names : list string :=
  ["formats"; "onlyMainContent"; "includeTags"; "excludeTags"; "waitFor";
   "mobile"].

(** ** Invoking the tool *)

(** How the agent framework calls a structured tool (StructuredTool.call
    of @langchain/core): the argument is parsed with the tool's schema;
    when parsing fails the call throws before [func] runs, otherwise
    [func] receives the parsed data. *)
Definition tool_call (t : DynamicStructuredTool) (arg : json) : M string :=
  match zparse (schema t) arg with
  | Some (JObject parsed) => func t parsed
  | _ => throw (OtherError "Received tool input did not match expected schema")
  end.

(** ** Hosts and inputs used in examples *)

Definition example_node : INode := {| node_name := "Firecrawl" |}.

Definition example_credentials : credentials :=
  {| baseUrl := None; apiKey := "fc-key" |}.

(** A host configured for [toolType] whose remote end answers [answer]. *)
Definition example_host (toolType : string) (customDescription : string)
    (answer : result json) : host :=
  {| getNodeParameter := fun parameter _ fallback =>
       if (parameter =? "toolType")%string then toolType
       else if (parameter =? "description")%string then customDescription
       else fallback;
     getNode := example_node;
     getCredentials := fun _ => Ok example_credentials;
     httpRequest := fun _ => answer;
     runIndex := fun t => List.length t |}.

(** A host whose credential lookup fails the way n8n's does, with a
    NodeOperationError. *)
Definition no_credentials_host : host :=
  {| getNodeParameter := fun _ _ fallback => fallback;
     getNode := example_node;
     getCredentials := fun _ =>
       Throw (NodeOperationError example_node
                "Node does not have any credentials set");
     httpRequest := fun _ => Ok JNull;
     runIndex := fun t => List.length t |}.

Definition crawl_input : obj :=
  [("url", JString "https://example.com/blog"); ("limit", JNumber 20)].

Definition crawl_answer : json := JObject [("id", JString "job-123")].

(** Two transport failures: the first names a common error code, the
    second does not. *)
Definition refused : js_error := OtherError "connect ECONNREFUSED".

Definition server_error : js_error :=
  OtherError "Request failed with status code 500".

Definition bad_request : js_error :=
  NodeOperationError example_node "Bad request - please check your parameters".

Definition map_input : obj := [("url", JString "https://example.com")].

Definition map_answer : json :=
  JObject [("links", JArray [JString "https://example.com/a"])].

(** An input that brings its own [integration] property. *)
Definition marked_input : obj :=
  [("url", JString "https://example.com"); ("integration", JString "agent")].


(** The runs used as counterexamples: two invocations whose outbound call
    fails with a NodeOperationError. *)
Definition no_credentials_run : result string * list event :=
  createToolHandler no_credentials_host example_node "crawl" crawl_input [].

Definition bad_request_run : result string * list event :=
  createToolHandler (example_host "crawl" "" (Throw bad_request))
    example_node "crawl" crawl_input [].

(** The options object that [makeFirecrawlRequest] passes to the HTTP
    helper for the given credentials, operation and body. *)
Definition firecrawl_request (c : credentials) (operation : string)
    (body : obj) : http_request :=
  {| method := "POST";
     url := resolve_baseUrl c ++ "/" ++ operation;
     headers :=
       [ ("Authorization", "Bearer " ++ apiKey c);
         ("Content-Type", "application/json");
         ("Accept", "application/json") ];
     body := request_body body;
     json_option := true |}.

(** The trace as [createToolHandler] leaves it for the outbound call. *)
Definition dispatched (t : list event) (input : obj) : list event :=
  (t ++ [AddInputData AiTool (items_of (JObject input))])%list.

(** ** The node description (lines 54-144) *)

(** One entry of an [options] parameter. *)
Record INodePropertyOptions : Type := {
  option_name : string;
  option_value : string;
  option_description : string;
  option_action : string
}.

(** One parameter of the node; a field that the source leaves out is
    [None], [false] or the empty list. *)
Record INodeProperties : Type := {
  property_displayName : string;
  property_name : string;
  property_type : string;
  property_default : string;
  property_noDataExpression : bool;
  property_options : list INodePropertyOptions;
  property_placeholder : option string;
  property_description : option string;
  property_rows : option nat
}.

Record INodeCredentialDescription : Type := {
  credential_name : string;
  credential_required : bool
}.

Record INodeTypeDescription : Type := {
  node_displayName : string;
  node_type_name : string;
  node_icon : string;
  node_group : list string;
  node_version : nat;
  node_subtitle : string;
  node_description : string;
  node_defaults_name : string;
  node_codex_categories : list string;
  node_codex_subcategories : list (string * list string);
  node_codex_primaryDocumentation : list string;
  node_usableAsTool : bool;
  node_inputs : list NodeConnectionType;
  node_outputs : list NodeConnectionType;
  node_outputNames : list string;
  node_credentials : list INodeCredentialDescription;
  node_properties : list INodeProperties
}.

Definition notice_property : INodeProperties :=
  {| property_displayName :=
       "This node must be connected to an AI Agent node to function. The AI agent will automatically use these tools based on the conversation context.";
     property_name := "notice";
     property_type := "notice";
     property_default := "";
     property_noDataExpression := false;
     property_options := [];
     property_placeholder := None;
     property_description := None;
     property_rows := None |}.

Definition toolType_property : INodeProperties :=
  {| property_displayName := "Tool Type";
     property_name := "toolType";
     property_type := "options";
     property_default := "scrape";
     property_noDataExpression := true;
     property_options :=
       [ {| option_name := "Scrape";
            option_value := "scrape";
            option_description := "Scrape content from a single URL";
            option_action := "Scrape content from a single URL" |};
         {| option_name := "Map";
            option_value := "map";
            option_description := "Discover all URLs on a website";
            option_action := "Discover all URLs on a website" |};
         {| option_name := "Search";
            option_value := "search";
            option_description := "Search the web for information";
            option_action := "Search the web for information" |};
         {| option_name := "Crawl";
            option_value := "crawl";
            option_description := "Crawl multiple pages from a website";
            option_action := "Crawl multiple pages from a website" |} ];
     property_placeholder := None;
     property_description := None;
     property_rows := None |}.

Definition description_property : INodeProperties :=
  {| property_displayName := "Custom Description";
     property_name := "description";
     property_type := "string";
     property_default := "";
     property_noDataExpression := false;
     property_options := [];
     property_placeholder :=
       Some "e.g. Use this to scrape web content in markdown format";
     property_description :=
       Some "Optional: Add custom context about when the AI should use this Firecrawl tool";
     property_rows := Some 3 |}.

(** [FirecrawlTool.description]. *)
Definition FirecrawlTool_description : INodeTypeDescription :=
  {| node_displayName := "Firecrawl";
     node_type_name := "firecrawlTool";
     node_icon := "file:firecrawl.svg";
     node_group := ["transform"];
     node_version := 1;
     node_subtitle :=
       "={{$parameter[" ++ q "toolType" ++ "] || " ++ q "Firecrawl" ++ "}}";
     node_description :=
       "Use Firecrawl to scrape, search, and map websites with AI agents";
     node_defaults_name := "Firecrawl";
     node_codex_categories := ["AI"];
     node_codex_subcategories := [("AI", ["Tools"])];
     node_codex_primaryDocumentation := ["https://docs.firecrawl.dev/"];
     node_usableAsTool := true;
     node_inputs := [];
     node_outputs := [AiTool];
     node_outputNames := ["Tool"];
     node_credentials :=
       [ {| credential_name := "firecrawlApi"; credential_required := true |} ];
     node_properties :=
       [notice_property; toolType_property; description_property] |}.

(** The default the description declares for the parameter [parameter]. *)
Definition declared_default (parameter : string) : option string :=
  option_map property_default
    (find (fun p => (property_name p =? parameter)%string)
       (node_properties FirecrawlTool_description)).

(** The values the description offers for the parameter [parameter]. *)
Definition offered_values (parameter : string) : list string :=
  match find (fun p => (property_name p =? parameter)%string)
          (node_properties FirecrawlTool_description) with
  | Some p => map option_value (property_options p)
  | None => []
  end.

(** A host on which no parameter of the node is set: [getNodeParameter]
    answers with the fallback it is given. *)
Definition parameters_unset (this : host) : Prop :=
  forall parameter itemIndex fallback,
    getNodeParameter this parameter itemIndex fallback = fallback.

(** A host on which every parameter has the default the description
    declares for it. *)
Definition parameters_at_defaults (this : host) : Prop :=
  forall parameter itemIndex fallback,
    getNodeParameter this parameter itemIndex fallback =
    match declared_default parameter with
    | Some d => d
    | None => fallback
    end.

(** ** Further readings of schemas and traces *)

(** The fields of an object schema that an argument must have. *)
Definition required_fields (s : zschema) : list string :=
  map fst (filter (fun kf => negb (is_optional (snd kf))) (zshape s)).

Definition is_AddInputData (e : event) : bool :=
  match e with AddInputData _ _ => true | _ => false end.

Definition is_AddOutputData (e : event) : bool :=
  match e with AddOutputData _ _ _ => true | _ => false end.

(** A key made of decimal digits only.  An engine lists the keys that are
    array indices before the others; a key that is not made of digits is
    not an array index and keeps its place in insertion order. *)
Definition digits_only (k : string) : bool :=
  negb (k =? "")%string && (snd (span_digits k) =? "")%string.

(** The properties of an object other than [k], in order. *)
Definition obj_without (k : string) (o : obj) : obj :=
  filter (fun kv => negb (fst kv =? k)%string) o.

(** A host like [example_host] whose stored base URL is [stored]. *)
Definition host_with_baseUrl (stored : option string) (answer : result json)
    : host :=
  {| getNodeParameter := fun _ _ fallback => fallback;
     getNode := example_node;
     getCredentials := fun _ =>
       Ok {| baseUrl := stored; apiKey := "fc-key" |};
     httpRequest := fun _ => answer;
     runIndex := fun t => List.length t |}.

(** A host on which every parameter has its declared default. *)
Definition defaults_host : host :=
  {| getNodeParameter := fun parameter _ fallback =>
       match declared_default parameter with
       | Some d => d
       | None => fallback
       end;
     getNode := example_node;
     getCredentials := fun _ => Ok example_credentials;
     httpRequest := fun _ => Ok JNull;
     runIndex := fun t => List.length t |}.

(** A host whose secret store holds nothing but the [firecrawlApi]
    credentials. *)
Definition single_store_host (answer : result json) : host :=
  {| getNodeParameter := fun _ _ fallback => fallback;
     getNode := example_node;
     getCredentials := fun name =>
       if (name =? "firecrawlApi")%string then Ok example_credentials
       else Throw (NodeOperationError example_node
                     "Node does not have any credentials set");
     httpRequest := fun _ => answer;
     runIndex := fun t => List.length t |}.

(* ===================================================================== *)
(** * Part II: properties *)
(* ===================================================================== *)

(** ** Strings *)

Lemma append_assoc (a b c : string) : (a ++ b) ++ c = a ++ (b ++ c).
Proof.
  induction a as [|x a IH]; simpl; [reflexivity | now rewrite IH].
Qed.

Lemma append_nil_r (a : string) : a ++ "" = a.
Proof.
  induction a as [|x a IH]; simpl; [reflexivity | now rewrite IH].
Qed.

Lemma length_append (a b : string) :
  String.length (a ++ b) = String.length a + String.length b.
Proof.
  induction a as [|x a IH]; simpl; [reflexivity | now rewrite IH].
Qed.



Lemma or_else_nonempty (a b : string) : a <> "" -> or_else a b = a.
Proof.
  intros H. unfold or_else. destruct (String.eqb_spec a ""); congruence.
Qed.

(** ** Objects *)

Lemma obj_get_app (k : string) (o1 o2 : obj) :
  obj_get k (o1 ++ o2)%list =
  match obj_get k o2 with
  | Some v => Some v
  | None => obj_get k o1
  end.
Proof.
  induction o1 as [|[k1 v1] o1 IH]; simpl.
  - now destruct (obj_get k o2).
  - rewrite IH. now destruct (obj_get k o2).
Qed.

Lemma obj_get_replace (k k' : string) (v : json) (o : obj) :
  obj_get k
    (map (fun kv => if (fst kv =? k')%string then (fst kv, v) else kv) o) =
  if (k =? k')%string
  then match obj_get k o with Some _ => Some v | None => None end
  else obj_get k o.
Proof.
  induction o as [|[k1 v1] o IH]; simpl.
  - now destruct (k =? k')%string.
  - destruct (String.eqb_spec k1 k') as [->|Hk1]; simpl; rewrite IH.
    + destruct (String.eqb_spec k k') as [->|Hk].
      * now destruct (obj_get k' o).
      * reflexivity.
    + destruct (String.eqb_spec k k') as [->|Hk].
      * destruct (obj_get k' o); [reflexivity|].
        destruct (String.eqb_spec k' k1); congruence.
      * reflexivity.
Qed.

Lemma obj_get_set (k k' : string) (v : json) (o : obj) :
  obj_get k (obj_set k' v o) =
  if (k =? k')%string then Some v else obj_get k o.
Proof.
  unfold obj_set, obj_has.
  destruct (obj_get k' o) as [w|] eqn:E.
  - rewrite obj_get_replace.
    destruct (String.eqb_spec k k') as [->|]; [now rewrite E | reflexivity].
  - rewrite obj_get_app. simpl.
    destruct (String.eqb_spec k k'); [reflexivity | now destruct (obj_get k o)].
Qed.

Lemma obj_get_spread (k : string) (source target : obj) :
  obj_get k (spread target source) =
  match obj_get k source with
  | Some v => Some v
  | None => obj_get k target
  end.
Proof.
  unfold spread. revert target.
  induction source as [|[k1 v1] source IH]; intros target; simpl.
  - reflexivity.
  - rewrite IH, obj_get_set.
    destruct (obj_get k source); [reflexivity|].
    now destruct (k =? k1)%string.
Qed.

Lemma obj_get_none (k : string) (o : obj) :
  ~ In k (map fst o) -> obj_get k o = None.
Proof.
  induction o as [|[k1 v1] o IH]; simpl; intros H.
  - reflexivity.
  - rewrite IH by tauto.
    destruct (String.eqb_spec k k1) as [->|]; [tauto | reflexivity].
Qed.

Lemma obj_has_false (k : string) (o : obj) :
  ~ In k (map fst o) -> obj_has k o = false.
Proof. intros H. unfold obj_has. now rewrite obj_get_none. Qed.

Lemma spread_fresh (source target : obj) :
  NoDup (map fst (target ++ source)%list) ->
  spread target source = (target ++ source)%list.
Proof.
  unfold spread. revert target.
  induction source as [|[k v] source IH]; intros target H; simpl.
  - now rewrite List.app_nil_r.
  - assert (E : obj_set k v target = (target ++ [(k, v)])%list).
    { unfold obj_set. rewrite obj_has_false; [reflexivity|].
      rewrite map_app in H. simpl in H.
      apply NoDup_remove_2 in H. intros Hin. apply H.
      apply in_or_app. now left. }
    rewrite E, IH.
    + now rewrite <- List.app_assoc.
    + now rewrite <- List.app_assoc.
Qed.

Lemma obj_of_members_unique (ms : list (string * json)) :
  NoDup (map fst ms) -> obj_of_members ms = ms.
Proof. intros H. unfold obj_of_members. now rewrite spread_fresh. Qed.

(** ** One invocation of the handler *)

Section Invocation.

Variable this : host.
Variable node : INode.
Variable op : string.
Variable input : obj.

(** The outbound request: nothing is sent when the credentials do not
    resolve, and one request is sent when they do. *)
Lemma makeFirecrawlRequest_rejected (t : list event) (e : js_error) :
  getCredentials this "firecrawlApi" = Throw e ->
  makeFirecrawlRequest this op input t = (Throw e, t).
Proof.
  intros H. unfold makeFirecrawlRequest, bind, await. now rewrite H.
Qed.

Lemma makeFirecrawlRequest_sent (t : list event) (c : credentials) :
  getCredentials this "firecrawlApi" = Ok c ->
  makeFirecrawlRequest this op input t =
  (httpRequest this (firecrawl_request c op input),
   (t ++ [HttpRequest (firecrawl_request c op input)])%list).
Proof.
  intros H.
  unfold makeFirecrawlRequest, helpers_httpRequest, bind, await, emit, ret.
  rewrite H. fold (firecrawl_request c op input).
  now destruct (httpRequest this (firecrawl_request c op input)).
Qed.

(** The three ways an invocation ends. *)
Lemma createToolHandler_success (t t2 : list event) (R : json) :
  makeFirecrawlRequest this op input (dispatched t input) = (Ok R, t2) ->
  createToolHandler this node op input t =
  (Ok (JSON_stringify_space R 2),
   (t2 ++ [AddOutputData AiTool (runIndex this t)
             (OutputItems (items_of (JObject [("response", R)])))])%list).
Proof.
  intros H.
  unfold createToolHandler, bind, try_catch, addInputData, addOutputData,
    emit, ret.
  fold (dispatched t input). now rewrite H.
Qed.

Lemma createToolHandler_passthrough (t t2 : list event) (error : js_error) :
  makeFirecrawlRequest this op input (dispatched t input) = (Throw error, t2) ->
  instanceof_NodeOperationError error = true ->
  createToolHandler this node op input t = (Throw error, t2).
Proof.
  intros H Hk.
  unfold createToolHandler, bind, try_catch, addInputData, throw.
  fold (dispatched t input). now rewrite H, Hk.
Qed.

Lemma createToolHandler_wrapped (t t2 : list event) (error : js_error) :
  makeFirecrawlRequest this op input (dispatched t input) = (Throw error, t2) ->
  instanceof_NodeOperationError error = false ->
  let nodeError :=
    new_NodeOperationError node
      ("Firecrawl API error for " ++ op ++ ": " ++ errorMessage_of error
         ++ ". Input: " ++ JSON_stringify (JObject input)) in
  createToolHandler this node op input t =
  (Throw nodeError,
   (t2 ++ [AddOutputData AiTool (runIndex this t) (OutputError nodeError)])%list).
Proof.
  intros H Hk.
  unfold createToolHandler, bind, try_catch, addInputData, addOutputData,
    emit, throw.
  fold (dispatched t input). now rewrite H, Hk.
Qed.

(** Closes a goal [exists es, t' = t ++ es /\ http_requests es = l] once
    the run is known. *)
Ltac read_trace :=
  eexists; unfold dispatched; simpl; rewrite <- ?List.app_assoc;
  split; reflexivity.

(** The trace of one invocation: the input record, the request when the
    credentials resolve, and the outcome record unless the error passes
    through. *)
Lemma createToolHandler_trace (t : list event) :
  exists es,
    snd (createToolHandler this node op input t) = (t ++ es)%list /\
    http_requests es =
    match getCredentials this "firecrawlApi" with
    | Ok c => [firecrawl_request c op input]
    | Throw _ => []
    end.
Proof.
  destruct (getCredentials this "firecrawlApi") as [c|e0] eqn:Ec.
  - pose proof (makeFirecrawlRequest_sent (dispatched t input) c Ec) as Hm.
    destruct (httpRequest this (firecrawl_request c op input)) as [R|e].
    + rewrite (createToolHandler_success _ _ _ Hm). read_trace.
    + destruct (instanceof_NodeOperationError e) eqn:Ek.
      * rewrite (createToolHandler_passthrough _ _ _ Hm Ek). read_trace.
      * rewrite (createToolHandler_wrapped _ _ _ Hm Ek). read_trace.
  - pose proof (makeFirecrawlRequest_rejected (dispatched t input) e0 Ec)
      as Hm.
    destruct (instanceof_NodeOperationError e0) eqn:Ek.
    + rewrite (createToolHandler_passthrough _ _ _ Hm Ek). read_trace.
    + rewrite (createToolHandler_wrapped _ _ _ Hm Ek). read_trace.
Qed.

End Invocation.

Lemma in_http_requests (es : list event) (req : http_request) :
  In (HttpRequest req) es -> In req (http_requests es).
Proof.
  intros H. unfold http_requests. apply in_flat_map.
  exists (HttpRequest req). split; [assumption | now left].
Qed.

(** ** The integration marker *)

Lemma request_body_integration (input : obj) :
  obj_get "integration" (request_body input) =
  Some match obj_get "integration" input with
       | Some v => v
       | None => JString "n8n-tool"
       end.
Proof.
  unfold request_body. rewrite obj_get_spread.
  now destruct (obj_get "integration" input).
Qed.

Lemma request_body_other (k : string) (input : obj) :
  k <> "integration" ->
  obj_get k (request_body input) = obj_get k input.
Proof.
  intros H. unfold request_body. rewrite obj_get_spread. simpl.
  destruct (obj_get k input); [reflexivity|].
  destruct (String.eqb_spec k "integration"); congruence.
Qed.

(** ** Failures *)

(** C2, as stated, fails: when the failure is a NodeOperationError, the
    handler rethrows it and nothing is written to the output channel.
    This is so when the host's credential lookup rejects with one, and
    when the HTTP helper does. *)
Lemma passthrough_error_is_not_recorded :
  ((exists e, fst no_credentials_run = Throw e) /\
   ~ (exists connection index data,
        In (AddOutputData connection index data) (snd no_credentials_run)))
  /\
  ((exists e, fst bad_request_run = Throw e) /\
   ~ (exists connection index data,
        In (AddOutputData connection index data) (snd bad_request_run))).
Proof.
  split; split.
  - eexists. reflexivity.
  - intros (connection & index & data & H). vm_compute in H.
    destruct H as [H|[]]. discriminate H.
  - eexists. reflexivity.
  - intros (connection & index & data & H). vm_compute in H.
    destruct H as [H|[H|[]]]; discriminate H.
Qed.

(** C2 (amended): when the outbound call fails with an error that is not
    a NodeOperationError, the handler ends in a thrown error, and the
    last event of the trace at that point is the record of that same
    error on the output channel, under the index that [addInputData]
    returned for this invocation. *)
Theorem failure_is_recorded_before_raise (this : host) (node : INode)
    (op : string) (input : obj) (t t2 : list event) (error : js_error) :
  makeFirecrawlRequest this op input (dispatched t input) = (Throw error, t2) ->
  instanceof_NodeOperationError error = false ->
  exists nodeError,
    createToolHandler this node op input t =
    (Throw nodeError,
     (t2 ++ [AddOutputData AiTool (runIndex this t) (OutputError nodeError)])%list)
    /\ fst (addInputData this AiTool (items_of (JObject input)) t)
       = Ok (runIndex this t).
Proof.
  intros H Hk. eexists. split.
  - exact (createToolHandler_wrapped this node op input t t2 error H Hk).
  - reflexivity.
Qed.

Lemma failure_is_recorded_before_raise_witness :
  exists nodeError,
    createToolHandler (example_host "crawl" "" (Throw refused)) example_node
      "crawl" crawl_input [] =
    (Throw nodeError,
     (dispatched [] crawl_input
        ++ [HttpRequest (firecrawl_request example_credentials "crawl" crawl_input)]
        ++ [AddOutputData AiTool 0 (OutputError nodeError)])%list)
    /\ fst (addInputData (example_host "crawl" "" (Throw refused)) AiTool
              (items_of (JObject crawl_input)) [])
       = Ok 0.
Proof.
  apply (failure_is_recorded_before_raise
           (example_host "crawl" "" (Throw refused)) example_node "crawl"
           crawl_input []
           (dispatched [] crawl_input
              ++ [HttpRequest
                    (firecrawl_request example_credentials "crawl" crawl_input)])
           refused).
  - reflexivity.
  - reflexivity.
Defined.

(** C7: when the outbound call fails with a NodeOperationError, the
    handler throws that very error, and adds nothing to the trace. *)
Theorem NodeOperationError_passes_through (this : host) (node : INode)
    (op : string) (input : obj) (t t2 : list event) (error : js_error) :
  makeFirecrawlRequest this op input (dispatched t input) = (Throw error, t2) ->
  instanceof_NodeOperationError error = true ->
  createToolHandler this node op input t = (Throw error, t2).
Proof. apply createToolHandler_passthrough. Qed.

Lemma NodeOperationError_passes_through_witness :
  createToolHandler no_credentials_host example_node "crawl" crawl_input [] =
  (Throw (NodeOperationError example_node
            "Node does not have any credentials set"),
   dispatched [] crawl_input).
Proof.
  apply (NodeOperationError_passes_through no_credentials_host example_node
           "crawl" crawl_input [] (dispatched [] crawl_input)).
  - reflexivity.
  - reflexivity.
Defined.

(** ** Tool construction *)

(** Case analysis on membership in [operations]. *)
Ltac each_operation H := destruct H as [<-|[<-|[<-|[<-|[]]]]].

Lemma supplyData_known (this : host) (itemIndex : nat) (t : list event)
    (op : string) :
  In op operations ->
  getNodeParameter this "toolType" itemIndex "scrape" = op ->
  supplyData this itemIndex t =
  (Ok {| response :=
           {| name := "firecrawl_" ++ op;
              description :=
                or_else (getNodeParameter this "description" itemIndex "")
                  (template_of op);
              schema := schema_of op;
              func := createToolHandler this (getNode this) op |} |},
   t).
Proof.
  intros Hin Hop. unfold supplyData. rewrite Hop.
  each_operation Hin; reflexivity.
Qed.


(** C8: for each of the four operations, a custom description that is
    not empty is the description of the tool. *)
Theorem custom_description_is_used (this : host) (itemIndex : nat)
    (t : list event) (custom : string) :
  In (getNodeParameter this "toolType" itemIndex "scrape") operations ->
  getNodeParameter this "description" itemIndex "" = custom ->
  custom <> "" ->
  exists tool,
    supplyData this itemIndex t = (Ok {| response := tool |}, t)
    /\ description tool = custom.
Proof.
  intros Hin Hd Hne. eexists. split.
  - apply (supplyData_known this itemIndex t _ Hin eq_refl).
  - simpl. rewrite Hd. now apply or_else_nonempty.
Qed.

Lemma custom_description_is_used_witness :
  exists tool,
    supplyData (example_host "search" "Look things up" (Ok JNull)) 0 []
    = (Ok {| response := tool |}, [])
    /\ description tool = "Look things up".
Proof.
  apply (custom_description_is_used
           (example_host "search" "Look things up" (Ok JNull)) 0 []
           "Look things up").
  - simpl. tauto.
  - reflexivity.
  - discriminate.
Defined.

(** ** Schemas *)

(** Induction on schemas that reaches the fields of an object. *)
Lemma zschema_induction (P : zschema -> Prop) :
  (forall m, P (ZString m)) ->
  P ZNumber ->
  P ZBoolean ->
  (forall values, P (ZEnum values)) ->
  (forall element, P element -> P (ZArray element)) ->
  (forall shape, Forall (fun kf => P (snd kf)) shape -> P (ZObject shape)) ->
  (forall inner, P inner -> P (ZOptional inner)) ->
  (forall inner d, P inner -> P (ZDescribe inner d)) ->
  forall s, P s.
Proof.
  intros Hs Hn Hb He Ha Ho Hopt Hd.
  fix IH 1. intros [m| | |values|element|shape|inner|inner d].
  - apply Hs.
  - apply Hn.
  - apply Hb.
  - apply He.
  - apply Ha, IH.
  - apply Ho. induction shape as [|[k fs] shape IHs]; constructor.
    + apply IH.
    + exact IHs.
  - apply Hopt, IH.
  - apply Hd, IH.
Qed.

Lemma ztype_not_optional (s : zschema) : is_optional (ztype s) = false.
Proof. induction s; simpl; auto. Qed.

(** Descriptions and repeated [optional] wrappers do not change what a
    schema accepts or returns. *)
Lemma zparse_ztype (s : zschema) : forall v, zparse (ztype s) v = zparse s v.
Proof.
  induction s as [m| | |values|element IHe|shape IHs|inner IHi|inner d IHi]
    using zschema_induction; intros v; simpl; try reflexivity; auto.
  - destruct v; try reflexivity.
    replace (map (zparse (ztype element)) items)
      with (map (zparse element) items)
      by (apply map_ext; intros; now rewrite IHe).
    reflexivity.
  - destruct v as [| | | | |o]; try reflexivity.
    match goal with
    | |- match ?a with _ => _ end = match ?b with _ => _ end =>
        replace a with b; [reflexivity|]
    end.
    induction IHs as [|[k fs] shape Hfs _ IH]; simpl; [reflexivity|].
    rewrite <- IH.
    destruct (obj_get k o) as [x|].
    + replace (zparse (if is_optional fs then ZOptional (ztype fs)
                       else ztype fs) x)
        with (zparse fs x); [reflexivity|].
      simpl in Hfs. rewrite <- Hfs. now destruct (is_optional fs).
    + destruct (is_optional fs) eqn:E; simpl.
      * reflexivity.
      * now rewrite ztype_not_optional.
Qed.

Lemma same_ztype_same_parse (a b : zschema) :
  ztype a = ztype b -> forall v, zparse a v = zparse b v.
Proof.
  intros H v. now rewrite <- (zparse_ztype a), <- (zparse_ztype b), H.
Qed.

(** C9: the [scrapeOptions] schemas nested in the search and the crawl
    schemas are built from the same object literal and differ only in
    the description attached to the field; both declare the six fields
    formats (an array over the five-valued enumeration), onlyMainContent,
    includeTags, excludeTags, waitFor and mobile, and each field has the
    type and the optionality of the field of that name at the top level
    of the scrape schema, so the three accept the same values. *)
Theorem scrapeOptions_schemas_agree :
  exists so_search so_crawl,
    zfield "scrapeOptions" search_schema = Some so_search
    /\ zfield "scrapeOptions" crawl_schema = Some so_crawl
    /\ search_scrapeOptions_object = crawl_scrapeOptions_object
    /\ is_optional so_search = true
    /\ is_optional so_crawl = true
    /\ ztype so_search = ztype so_crawl
    /\ map fst (zshape so_search) = scrape_option_names
    /\ map fst (zshape so_crawl) = scrape_option_names
    /\ option_map ztype (zfield "formats" so_search)
       = Some (ZArray
                 (ZEnum ["markdown"; "html"; "rawHtml"; "links"; "screenshot"]))
    /\ Forall
         (fun k =>
            exists top in_search in_crawl,
              zfield k scrape_schema = Some top
              /\ zfield k so_search = Some in_search
              /\ zfield k so_crawl = Some in_crawl
              /\ ztype in_search = ztype top
              /\ ztype in_crawl = ztype top
              /\ is_optional top = true
              /\ is_optional in_search = true
              /\ is_optional in_crawl = true
              /\ (forall v, zparse in_search v = zparse top v)
              /\ (forall v, zparse in_crawl v = zparse top v))
         scrape_option_names
    /\ (forall v, zparse so_search v = zparse so_crawl v).
Proof.
  do 2 eexists.
  split; [reflexivity|]. split; [reflexivity|].
  split; [reflexivity|]. split; [reflexivity|]. split; [reflexivity|].
  split; [reflexivity|]. split; [reflexivity|]. split; [reflexivity|].
  split; [reflexivity|]. split.
  - repeat constructor;
      (do 3 eexists;
       split; [reflexivity|]; split; [reflexivity|]; split; [reflexivity|];
       split; [reflexivity|]; split; [reflexivity|]; split; [reflexivity|];
       split; [reflexivity|]; split; [reflexivity|];
       split; apply same_ztype_same_parse; reflexivity).
  - apply same_ztype_same_parse. reflexivity.
Qed.

Lemma search_rejects_empty_query (o : obj) :
  obj_get "query" o = Some (JString "") ->
  zparse search_schema (JObject o) = None.
Proof.
  intros H. unfold search_schema. simpl. now rewrite H.
Qed.

(** C10: the search schema asks for a [query] of at least one character:
    an argument whose [query] is the empty string is refused when the
    tool is called, before the handler runs, so the call throws and adds
    nothing to the trace.  [query] is the only string field with a
    minimum length in the four schemas. *)
Theorem empty_query_is_rejected (this : host) (itemIndex : nat) (o : obj)
    (t0 t : list event) :
  getNodeParameter this "toolType" itemIndex "scrape" = "search" ->
  obj_get "query" o = Some (JString "") ->
  (exists tool e,
     supplyData this itemIndex t0 = (Ok {| response := tool |}, t0)
     /\ tool_call tool (JObject o) t = (Throw e, t))
  /\ In (["query"], Some 1) (string_fields [] search_schema)
  /\ Forall
       (fun op =>
          Forall
            (fun field =>
               snd field = None \/ (op = "search" /\ field = (["query"], Some 1)))
            (string_fields [] (schema_of op)))
       operations.
Proof.
  intros Hop Hq. split; [|split].
  - do 2 eexists. split.
    + apply (supplyData_known this itemIndex t0 "search"); [simpl; tauto | exact Hop].
    + unfold tool_call. cbn [schema].
      replace (zparse (schema_of "search") (JObject o)) with (@None json)
        by (symmetry; apply (search_rejects_empty_query o Hq)).
      reflexivity.
  - simpl. tauto.
  - unfold operations.
    repeat match goal with
           | |- Forall _ (_ :: _) => apply Forall_cons
           | |- Forall _ [] => apply Forall_nil
           | |- Forall _ ?l =>
               let l' := eval vm_compute in l in change l with l'
           | |- _ \/ _ =>
               first [left; reflexivity | right; split; reflexivity]
           end.
Qed.

Lemma empty_query_is_rejected_witness :
  (exists tool e,
     supplyData (example_host "search" "" (Ok JNull)) 0 []
     = (Ok {| response := tool |}, [])
     /\ tool_call tool (JObject [("query", JString ""); ("limit", JNumber 5)]) []
        = (Throw e, []))
  /\ In (["query"], Some 1) (string_fields [] search_schema)
  /\ Forall
       (fun op =>
          Forall
            (fun field =>
               snd field = None \/ (op = "search" /\ field = (["query"], Some 1)))
            (string_fields [] (schema_of op)))
       operations.
Proof.
  apply (empty_query_is_rejected (example_host "search" "" (Ok JNull)) 0
           [("query", JString ""); ("limit", JNumber 5)] [] []).
  - reflexivity.
  - reflexivity.
Defined.

(** ** JSON text: white space, strings and numbers *)

Lemma skip_ws_all_ws (w s : string) :
  all_ws w = true -> skip_ws (w ++ s) = skip_ws s.
Proof.
  induction w as [|c w IH]; simpl; intros H; [reflexivity|].
  apply andb_true_iff in H. destruct H as [Hc Hw]. now rewrite Hc, IH.
Qed.

Lemma all_ws_append (a b : string) :
  all_ws a = true -> all_ws b = true -> all_ws (a ++ b) = true.
Proof.
  induction a as [|c a IH]; simpl; intros Ha Hb; [assumption|].
  apply andb_true_iff in Ha. destruct Ha as [Hc Ha]. now rewrite Hc, IH.
Qed.

Lemma all_ws_break (gap indent : string) :
  all_ws indent = true -> all_ws (break gap indent) = true.
Proof.
  intros H. unfold break. destruct (gap =? "")%string; [reflexivity|].
  simpl. exact H.
Qed.

Lemma all_ws_spaces (n : nat) : all_ws (spaces n) = true.
Proof. induction n; simpl; auto. Qed.

Lemma parse_value_skip (fuel : nat) (w s : string) :
  all_ws w = true -> parse_value fuel (w ++ s) = parse_value fuel s.
Proof.
  intros H. destruct fuel; simpl; [reflexivity|].
  now rewrite (skip_ws_all_ws w s H).
Qed.

Lemma parse_members_skip (fuel : nat) (w s : string) :
  all_ws w = true -> parse_members fuel (w ++ s) = parse_members fuel s.
Proof.
  intros H. destruct fuel; simpl; [reflexivity|].
  now rewrite (skip_ws_all_ws w s H).
Qed.

(** Reading back one escaped character. *)
Lemma parse_chars_escape_char (c : ascii) (s out rest : string) :
  parse_chars s = Some (out, rest) ->
  parse_chars (escape_char c ++ s) = Some (String c out, rest).
Proof.
  intros H.
  destruct c as [[|] [|] [|] [|] [|] [|] [|] [|]];
    simpl; rewrite H; reflexivity.
Qed.

Lemma parse_chars_escape_string (s rest : string) :
  parse_chars (escape_string s ++ String dquote rest) = Some (s, rest).
Proof.
  induction s as [|c s IH]; simpl.
  - reflexivity.
  - rewrite append_assoc. now apply parse_chars_escape_char.
Qed.

Lemma parse_chars_quoted (s rest : string) :
  exists tail,
    QuoteJSONString s ++ rest = String dquote tail
    /\ parse_chars tail = Some (s, rest).
Proof.
  exists (escape_string s ++ String dquote rest). split.
  - unfold QuoteJSONString, dq. simpl. now rewrite append_assoc.
  - apply parse_chars_escape_string.
Qed.

Lemma span_digits_boundary (rest : string) :
  number_boundary rest = true -> span_digits rest = ("", rest).
Proof.
  destruct rest as [|c r]; simpl; [reflexivity|].
  intros H. apply andb_true_iff in H. destruct H as [H _].
  apply negb_true_iff in H. now rewrite H.
Qed.

Lemma span_digits_uint (u : Decimal.uint) (rest : string) :
  number_boundary rest = true ->
  span_digits (DecimalString.NilEmpty.string_of_uint u ++ rest) =
  (DecimalString.NilEmpty.string_of_uint u, rest).
Proof.
  intros H. induction u; simpl; try (rewrite IHu; reflexivity).
  now apply span_digits_boundary.
Qed.

(** The decimal digits of a positive number do not start with a zero. *)
Lemma to_uint_no_leading_zero (p : positive) (u : Decimal.uint) :
  Pos.to_uint p <> Decimal.D0 u.
Proof.
  intros E.
  assert (Hn : Decimal.unorm (Pos.to_uint p) = Pos.to_uint p).
  { rewrite <- (DecimalPos.Unsigned.to_of (Pos.to_uint p)).
    now rewrite DecimalPos.Unsigned.of_to. }
  rewrite E in Hn. unfold Decimal.unorm in Hn. simpl in Hn.
  destruct (Decimal.nzhead u) eqn:Eu;
    try (apply (DecimalFacts.nzhead_nonzero u u); congruence);
    try discriminate Hn.
  injection Hn as <-.
  apply (DecimalPos.Unsigned.to_uint_nonzero p). exact E.
Qed.

Lemma parse_digits_of_positive (p : positive) (negative : bool)
    (rest : string) :
  number_boundary rest = true ->
  parse_digits negative
    (DecimalString.NilEmpty.string_of_uint (Pos.to_uint p) ++ rest)
  = Some (if negative then Zneg p else Zpos p, rest).
Proof.
  intros H. unfold parse_digits. rewrite (span_digits_uint _ _ H).
  assert (Hend : integral_end rest = true).
  { destruct rest; [reflexivity|]. simpl in H.
    apply andb_true_iff in H. tauto. }
  assert (Hd : json_digits
                 (DecimalString.NilEmpty.string_of_uint (Pos.to_uint p)) = true).
  { pose proof (to_uint_no_leading_zero p) as Hz.
    pose proof (DecimalPos.Unsigned.to_uint_nonnil p) as Hnil.
    destruct (Pos.to_uint p) as [|u|u|u|u|u|u|u|u|u|u];
      try congruence; try (exfalso; now apply (Hz u));
      simpl; now destruct (DecimalString.NilEmpty.string_of_uint u). }
  rewrite Hd, Hend, DecimalString.NilEmpty.usu. simpl.
  f_equal. f_equal.
  destruct negative.
  - exact (DecimalZ.of_to (Zneg p)).
  - exact (DecimalZ.of_to (Zpos p)).
Qed.

Lemma string_of_positive (p : positive) :
  DecimalString.NilZero.string_of_uint (Pos.to_uint p) =
  DecimalString.NilEmpty.string_of_uint (Pos.to_uint p).
Proof.
  pose proof (DecimalPos.Unsigned.to_uint_nonnil p) as Hnil.
  now destruct (Pos.to_uint p).
Qed.

(** The text of a positive number starts with a digit from 1 to 9. *)
Lemma string_of_positive_head (p : positive) :
  exists c r,
    DecimalString.NilEmpty.string_of_uint (Pos.to_uint p) = String c r
    /\ is_digit c = true /\ (c =? "-")%char = false.
Proof.
  pose proof (to_uint_no_leading_zero p) as Hz.
  pose proof (DecimalPos.Unsigned.to_uint_nonnil p) as Hnil.
  destruct (Pos.to_uint p) as [|u|u|u|u|u|u|u|u|u|u];
    try congruence; try (exfalso; now apply (Hz u));
    simpl; do 2 eexists; split; try reflexivity; split; reflexivity.
Qed.

Lemma parse_number_toString (n : Z) (rest : string) :
  number_boundary rest = true ->
  parse_number (Number_toString n ++ rest) = Some (n, rest).
Proof.
  intros H. unfold Number_toString.
  destruct n as [|p|p].
  - simpl. unfold parse_digits. simpl. rewrite (span_digits_boundary rest H).
    assert (Hend : integral_end rest = true).
    { destruct rest; [reflexivity|]. simpl in H.
      apply andb_true_iff in H. tauto. }
    simpl. now rewrite Hend.
  - change (Z.to_int (Zpos p)) with (Decimal.Pos (Pos.to_uint p)).
    simpl DecimalString.NilZero.string_of_int. rewrite string_of_positive.
    rewrite <- (parse_digits_of_positive p false rest H).
    destruct (string_of_positive_head p) as (c & r & E & Hc & Hm).
    rewrite E. simpl. now rewrite Hm.
  - change (Z.to_int (Zneg p)) with (Decimal.Neg (Pos.to_uint p)).
    simpl DecimalString.NilZero.string_of_int. rewrite string_of_positive.
    simpl.
    exact (parse_digits_of_positive p true rest H).
Qed.

(** The first character of the text of a number. *)
Lemma Number_toString_head (n : Z) :
  exists c r,
    Number_toString n = String c r
    /\ ((c =? "-")%char || is_digit c) = true.
Proof.
  unfold Number_toString. destruct n as [|p|p].
  - now exists "0"%char, "".
  - change (Z.to_int (Zpos p)) with (Decimal.Pos (Pos.to_uint p)).
    simpl DecimalString.NilZero.string_of_int. rewrite string_of_positive.
    destruct (string_of_positive_head p) as (c & r & E & Hc & Hm).
    exists c, r. split; [exact E|]. now rewrite Hc, orb_true_r.
  - change (Z.to_int (Zneg p)) with (Decimal.Neg (Pos.to_uint p)).
    simpl. now do 2 eexists.
Qed.

(** ** JSON values: induction, and the shape of their text *)

(** Induction on values that reaches the items of an array and the
    members of an object. *)
Lemma json_induction (P : json -> Prop) :
  P JNull ->
  (forall b, P (JBool b)) ->
  (forall n, P (JNumber n)) ->
  (forall s, P (JString s)) ->
  (forall items, Forall P items -> P (JArray items)) ->
  (forall members, Forall (fun kv => P (snd kv)) members -> P (JObject members)) ->
  forall v, P v.
Proof.
  intros Hnull Hbool Hnum Hstr Harr Hobj.
  fix IH 1. intros [|b|n|s|items|members].
  - apply Hnull.
  - apply Hbool.
  - apply Hnum.
  - apply Hstr.
  - apply Harr. induction items as [|x items IHi]; constructor.
    + apply IH.
    + exact IHi.
  - apply Hobj. induction members as [|[k x] members IHm]; constructor.
    + apply IH.
    + exact IHm.
Qed.

Lemma unique_keys_items (items : list json) :
  unique_keys (JArray items) -> Forall unique_keys items.
Proof.
  simpl. induction items as [|x items IH]; intros H; constructor.
  - apply H.
  - apply IH, H.
Qed.

Lemma unique_keys_members (members : list (string * json)) :
  unique_keys (JObject members) ->
  NoDup (map fst members) /\ Forall (fun kv => unique_keys (snd kv)) members.
Proof.
  simpl. intros [Hnd H]. split; [exact Hnd|]. clear Hnd.
  induction members as [|kv members IH]; constructor.
  - apply H.
  - apply IH, H.
Qed.

Lemma concat_cons (sep p : string) (ps : list string) :
  String.concat sep (p :: ps) =
  p ++ match ps with
       | [] => ""
       | _ :: _ => sep ++ String.concat sep ps
       end.
Proof. destruct ps; simpl; [now rewrite append_nil_r | reflexivity]. Qed.

Lemma serialize_parts_cons (opening closing gap stepback p : string)
    (ps : list string) :
  serialize_parts opening closing gap stepback (p :: ps) =
  opening ++ break gap (stepback ++ gap)
    ++ String.concat ("," ++ break gap (stepback ++ gap)) (p :: ps)
    ++ break gap stepback ++ closing.
Proof.
  unfold serialize_parts, break.
  destruct (gap =? "")%string; [reflexivity|].
  now rewrite !append_assoc.
Qed.

Lemma serialize_parts_nonempty (opening closing gap stepback : string)
    (partial : list string) :
  partial <> [] ->
  serialize_parts opening closing gap stepback partial =
  opening ++ break gap (stepback ++ gap)
    ++ String.concat ("," ++ break gap (stepback ++ gap)) partial
    ++ break gap stepback ++ closing.
Proof.
  destruct partial; [congruence|]. intros _. apply serialize_parts_cons.
Qed.

Lemma number_head_is_plain (c : ascii) :
  ((c =? "-")%char || is_digit c) = true ->
  is_ws c = false /\ (c =? "[")%char = false /\ (c =? "]")%char = false
  /\ (c =? "{")%char = false /\ (c =? dquote)%char = false.
Proof.
  destruct c as [[|] [|] [|] [|] [|] [|] [|] [|]];
    simpl; intros H; try discriminate H; repeat split.
Qed.

(** The text of a value starts with a character that is neither white
    space nor a closing bracket. *)
Lemma serialize_head (gap indent : string) (v : json) :
  exists c r,
    SerializeJSONProperty gap indent v = String c r
    /\ is_ws c = false /\ (c =? "]")%char = false.
Proof.
  destruct v as [|[|]|n|s|items|members]; simpl.
  - now do 2 eexists.
  - now do 2 eexists.
  - now do 2 eexists.
  - destruct (Number_toString_head n) as (c & r & E & Hc).
    exists c, r. split; [exact E|].
    destruct (number_head_is_plain c Hc) as (H1 & _ & H3 & _). now split.
  - now do 2 eexists.
  - destruct items; [now do 2 eexists|].
    simpl map. rewrite serialize_parts_cons. now do 2 eexists.
  - destruct members; [now do 2 eexists|].
    simpl map. rewrite serialize_parts_cons. now do 2 eexists.
Qed.

Lemma boundary_after_item (w : string) (c : ascii) (rest : string) :
  all_ws w = true ->
  is_digit c = false -> integral_end (String c rest) = true ->
  number_boundary (w ++ String c rest) = true.
Proof.
  intros Hw Hc He. destruct w as [|x w]; simpl.
  - simpl in He. now rewrite Hc, He.
  - simpl in Hw. apply andb_true_iff in Hw. destruct Hw as [Hx _].
    clear - Hx.
    destruct x as [[|] [|] [|] [|] [|] [|] [|] [|]];
      simpl in Hx; try discriminate Hx; reflexivity.
Qed.

(** ** Reading the text of a value back *)

Lemma parse_value_S (fuel : nat) (s : string) :
  parse_value (S fuel) s =
  match skip_ws s with
  | EmptyString => None
  | String c r =>
      if (c =? "[")%char then
        match skip_ws r with
        | EmptyString => None
        | String c2 r2 =>
            if (c2 =? "]")%char then Some (JArray [], r2)
            else
              match parse_elements fuel r with
              | Some (items, rest) => Some (JArray items, rest)
              | None => None
              end
        end
      else if (c =? "{")%char then
        match skip_ws r with
        | EmptyString => None
        | String c2 r2 =>
            if (c2 =? "}")%char then Some (JObject [], r2)
            else
              match parse_members fuel r with
              | Some (ms, rest) => Some (JObject (obj_of_members ms), rest)
              | None => None
              end
        end
      else if (c =? dquote)%char then
        match parse_chars r with
        | Some (str, rest) => Some (JString str, rest)
        | None => None
        end
      else if (c =? "-")%char || is_digit c then
        match parse_number (String c r) with
        | Some (n, rest) => Some (JNumber n, rest)
        | None => None
        end
      else parse_literal (String c r)
  end.
Proof. reflexivity. Qed.

Lemma parse_elements_S (fuel : nat) (s : string) :
  parse_elements (S fuel) s =
  match parse_value fuel s with
  | None => None
  | Some (v, r) =>
      match skip_ws r with
      | EmptyString => None
      | String c r' =>
          if (c =? ",")%char then
            match parse_elements fuel r' with
            | Some (vs, rest) => Some (v :: vs, rest)
            | None => None
            end
          else if (c =? "]")%char then Some ([v], r')
          else None
      end
  end.
Proof. reflexivity. Qed.

Lemma parse_members_S (fuel : nat) (s : string) :
  parse_members (S fuel) s =
  match skip_ws s with
  | EmptyString => None
  | String c0 r0 =>
      if (c0 =? dquote)%char then
        match parse_chars r0 with
        | None => None
        | Some (k, r1) =>
            match skip_ws r1 with
            | EmptyString => None
            | String c1 r2 =>
                if (c1 =? ":")%char then
                  match parse_value fuel r2 with
                  | None => None
                  | Some (v, r3) =>
                      match skip_ws r3 with
                      | EmptyString => None
                      | String c r' =>
                          if (c =? ",")%char then
                            match parse_members fuel r' with
                            | Some (ms, rest) => Some ((k, v) :: ms, rest)
                            | None => None
                            end
                          else if (c =? "}")%char then Some ([(k, v)], r')
                          else None
                      end
                  end
                else None
            end
        end
      else None
  end.
Proof. reflexivity. Qed.

Lemma concat_one (sep p : string) : String.concat sep [p] = p.
Proof. reflexivity. Qed.

Lemma concat_more (sep p : string) (ps : list string) :
  ps <> [] ->
  String.concat sep (p :: ps) = p ++ sep ++ String.concat sep ps.
Proof. destruct ps; [congruence | reflexivity]. Qed.

Lemma parse_elements_more (fuel : nat) (s r : string) (v : json) :
  parse_value fuel s = Some (v, String "," r) ->
  parse_elements (S fuel) s =
  match parse_elements fuel r with
  | Some (vs, rest) => Some (v :: vs, rest)
  | None => None
  end.
Proof. intros H. rewrite parse_elements_S, H. reflexivity. Qed.

Lemma parse_elements_last (fuel : nat) (s w r : string) (v : json) :
  all_ws w = true ->
  parse_value fuel s = Some (v, w ++ String "]" r) ->
  parse_elements (S fuel) s = Some ([v], r).
Proof.
  intros Hw H. rewrite parse_elements_S, H, (skip_ws_all_ws w _ Hw).
  reflexivity.
Qed.

(** The items of an array, read back from their text. *)
Lemma parse_elements_text (gap indent closing : string) (items : list json) :
  all_ws indent = true ->
  all_ws closing = true ->
  Forall (reads_back gap) items ->
  Forall unique_keys items ->
  items <> [] ->
  forall fuel rest,
    fold_right (fun x n => S (json_size x + n)) 0 items <= fuel ->
    parse_elements fuel
      (break gap indent
         ++ String.concat ("," ++ break gap indent)
              (map (SerializeJSONProperty gap indent) items)
         ++ closing ++ String "]" rest)
    = Some (items, rest).
Proof.
  intros Hind Hclose Hall Huniq.
  pose proof (all_ws_break gap indent Hind) as Hb.
  induction Hall as [|x xs Hx Hxs IH]; intros Hne fuel rest Hfuel;
    [congruence|].
  inversion Huniq as [|? ? Hux Huxs]; subst.
  simpl in Hfuel. destruct fuel as [|fuel]; [lia|].
  rewrite map_cons.
  destruct xs as [|y ys].
  - simpl map. rewrite concat_one.
    apply (parse_elements_last fuel _ closing rest x Hclose).
    rewrite parse_value_skip by exact Hb.
    apply (Hx indent _ fuel Hind Hux); [lia|].
    now apply boundary_after_item.
  - rewrite concat_more by discriminate.
    rewrite !append_assoc.
    rewrite (parse_elements_more fuel _
               (break gap indent
                  ++ String.concat ("," ++ break gap indent)
                       (map (SerializeJSONProperty gap indent) (y :: ys))
                  ++ closing ++ String "]" rest) x).
    + rewrite (IH Huxs); [reflexivity | discriminate | simpl in *; lia].
    + rewrite parse_value_skip by exact Hb.
      apply (Hx indent _ fuel Hind Hux); [lia | reflexivity].
Qed.

Lemma parse_members_key (fuel : nat) (w sp k s : string) :
  all_ws w = true ->
  all_ws sp = true ->
  parse_members (S fuel) (w ++ QuoteJSONString k ++ String ":" (sp ++ s)) =
  match parse_value fuel s with
  | None => None
  | Some (v, r3) =>
      match skip_ws r3 with
      | EmptyString => None
      | String c r' =>
          if (c =? ",")%char then
            match parse_members fuel r' with
            | Some (ms, rest) => Some ((k, v) :: ms, rest)
            | None => None
            end
          else if (c =? "}")%char then Some ([(k, v)], r')
          else None
      end
  end.
Proof.
  intros Hw Hsp. rewrite parse_members_skip by exact Hw.
  destruct (parse_chars_quoted k (String ":" (sp ++ s))) as (tail & E & Hp).
  rewrite E, parse_members_S.
  change (skip_ws (String dquote tail)) with (String dquote tail).
  cbv iota. change ((dquote =? dquote)%char) with true. cbv iota.
  rewrite Hp.
  change (skip_ws (String ":" (sp ++ s))) with (String ":" (sp ++ s)).
  cbv iota. change ((":" =? ":")%char) with true. cbv iota.
  now rewrite parse_value_skip.
Qed.

Lemma parse_members_more (fuel : nat) (w sp k s r : string) (v : json) :
  all_ws w = true ->
  all_ws sp = true ->
  parse_value fuel s = Some (v, String "," r) ->
  parse_members (S fuel) (w ++ QuoteJSONString k ++ String ":" (sp ++ s)) =
  match parse_members fuel r with
  | Some (ms, rest) => Some ((k, v) :: ms, rest)
  | None => None
  end.
Proof.
  intros Hw Hsp H. rewrite parse_members_key, H by assumption. reflexivity.
Qed.

Lemma parse_members_last (fuel : nat) (w sp k s w' r : string) (v : json) :
  all_ws w = true ->
  all_ws sp = true ->
  all_ws w' = true ->
  parse_value fuel s = Some (v, w' ++ String "}" r) ->
  parse_members (S fuel) (w ++ QuoteJSONString k ++ String ":" (sp ++ s)) =
  Some ([(k, v)], r).
Proof.
  intros Hw Hsp Hw' H.
  rewrite parse_members_key, H, (skip_ws_all_ws w' _ Hw') by assumption.
  reflexivity.
Qed.

(** The colon SerializeJSONObject puts after a key, and the space that
    follows it when there is a gap. *)
Lemma colon_text (gap : string) :
  exists sp,
    (if (gap =? "")%string then ":" else ": ") = String ":" sp
    /\ all_ws sp = true.
Proof. destruct (gap =? "")%string; now eexists. Qed.

(** The members of an object, read back from their text. *)
Lemma parse_members_text (gap indent closing : string)
    (members : list (string * json)) :
  all_ws indent = true ->
  all_ws closing = true ->
  Forall (fun kv => reads_back gap (snd kv)) members ->
  Forall (fun kv => unique_keys (snd kv)) members ->
  members <> [] ->
  forall fuel rest,
    fold_right (fun kv n => match kv with (_, x) => S (json_size x + n) end)
      0 members <= fuel ->
    parse_members fuel
      (break gap indent
         ++ String.concat ("," ++ break gap indent)
              (map (fun kv =>
                      match kv with
                      | (k, x) =>
                          QuoteJSONString k
                            ++ (if (gap =? "")%string then ":" else ": ")
                            ++ SerializeJSONProperty gap indent x
                      end) members)
         ++ closing ++ String "}" rest)
    = Some (members, rest).
Proof.
  intros Hind Hclose Hall Huniq.
  pose proof (all_ws_break gap indent Hind) as Hb.
  destruct (colon_text gap) as (sp & Ecolon & Hsp). rewrite Ecolon.
  induction Hall as [|[k x] xs Hx Hxs IH]; intros Hne fuel rest Hfuel;
    [congruence|].
  inversion Huniq as [|? ? Hux Huxs]; subst.
  simpl in Hx, Hux.
  simpl in Hfuel. destruct fuel as [|fuel]; [lia|].
  rewrite map_cons.
  destruct xs as [|y ys].
  - simpl map. rewrite concat_one. rewrite !append_assoc.
    change (String ":" sp ++ SerializeJSONProperty gap indent x
              ++ closing ++ String "}" rest)
      with (String ":" (sp ++ SerializeJSONProperty gap indent x
                          ++ closing ++ String "}" rest)).
    apply (parse_members_last fuel _ sp k _ closing rest x Hb Hsp Hclose).
    apply (Hx indent _ fuel Hind Hux); [lia|].
    now apply boundary_after_item.
  - rewrite concat_more by discriminate.
    rewrite !append_assoc.
    change (String ":" sp ++ ?z) with (String ":" (sp ++ z)).
    rewrite (parse_members_more fuel _ sp k _
               (break gap indent
                  ++ String.concat ("," ++ break gap indent)
                       (map (fun kv : string * json =>
                               let (k0, x0) := kv in
                               QuoteJSONString k0 ++ String ":" sp
                                 ++ SerializeJSONProperty gap indent x0)
                          (y :: ys))
                  ++ closing ++ String "}" rest) x Hb Hsp).
    + rewrite (IH Huxs); [reflexivity | discriminate | simpl in *; lia].
    + apply (Hx indent _ fuel Hind Hux); [lia | reflexivity].
Qed.

Lemma serialize_array (gap indent : string) (items : list json) :
  SerializeJSONProperty gap indent (JArray items) =
  serialize_parts "[" "]" gap indent
    (map (SerializeJSONProperty gap (indent ++ gap)) items).
Proof. reflexivity. Qed.

Lemma serialize_object (gap indent : string) (members : list (string * json)) :
  SerializeJSONProperty gap indent (JObject members) =
  serialize_parts "{" "}" gap indent
    (map (fun kv =>
            match kv with
            | (k, x) =>
                QuoteJSONString k
                  ++ (if (gap =? "")%string then ":" else ": ")
                  ++ SerializeJSONProperty gap (indent ++ gap) x
            end) members).
Proof. reflexivity. Qed.

(** Every value is read back from its text. *)
Lemma parse_value_serialize (gap : string) :
  all_ws gap = true -> forall v, reads_back gap v.
Proof.
  intros Hgap.
  induction v as [|b|n|s|items IH|members IH] using json_induction;
    intros indent rest fuel Hind Huniq Hfuel Hrest;
    (destruct fuel as [|fuel]; [simpl in Hfuel; lia|]).
  - reflexivity.
  - destruct b; reflexivity.
  - rewrite parse_value_S. simpl SerializeJSONProperty.
    destruct (Number_toString_head n) as (c & r & E & Hc).
    destruct (number_head_is_plain c Hc) as (H1 & H2 & H3 & H4 & H5).
    rewrite E. simpl append. simpl skip_ws. rewrite H1. cbv iota.
    rewrite H2, H4, H5, Hc.
    change (String c (r ++ rest)) with (String c r ++ rest).
    rewrite <- E, (parse_number_toString n rest Hrest). reflexivity.
  - rewrite parse_value_S. simpl SerializeJSONProperty.
    destruct (parse_chars_quoted s rest) as (tail & E & Hp).
    rewrite E.
    change (skip_ws (String dquote tail)) with (String dquote tail).
    cbv iota.
    change ((dquote =? "[")%char) with false.
    change ((dquote =? "{")%char) with false.
    change ((dquote =? dquote)%char) with true. cbv iota.
    now rewrite Hp.
  - destruct items as [|x xs]; [reflexivity|].
    apply unique_keys_items in Huniq.
    assert (Hind' : all_ws (indent ++ gap) = true)
      by now apply all_ws_append.
    pose proof (all_ws_break gap indent Hind) as Hclose.
    pose proof (all_ws_break gap (indent ++ gap) Hind') as Hopen.
    rewrite serialize_array, serialize_parts_nonempty by discriminate.
    rewrite !append_assoc.
    rewrite parse_value_S.
    change (skip_ws ("[" ++ ?z)) with (String "[" z).
    cbv iota. change (("["%char =? "[")%char) with true. cbv iota.
    change ("]" ++ rest) with (String "]" rest).
    rewrite (parse_elements_text gap (indent ++ gap) (break gap indent)
               (x :: xs) Hind' Hclose IH Huniq);
      [| discriminate | simpl in Hfuel |- *; lia].
    rewrite skip_ws_all_ws by exact Hopen.
    rewrite map_cons, concat_cons.
    destruct (serialize_head gap (indent ++ gap) x) as (c & r & E & Hc & Hb).
    rewrite E. simpl append. simpl skip_ws. rewrite Hc. cbv iota.
    now rewrite Hb.
  - destruct members as [|[k x] xs]; [reflexivity|].
    apply unique_keys_members in Huniq. destruct Huniq as [Hnd Huniq].
    assert (Hind' : all_ws (indent ++ gap) = true)
      by now apply all_ws_append.
    pose proof (all_ws_break gap indent Hind) as Hclose.
    pose proof (all_ws_break gap (indent ++ gap) Hind') as Hopen.
    rewrite serialize_object, serialize_parts_nonempty by discriminate.
    rewrite !append_assoc.
    rewrite parse_value_S.
    change (skip_ws ("{" ++ ?z)) with (String "{" z).
    cbv iota. change (("{"%char =? "[")%char) with false.
    change (("{"%char =? "{")%char) with true. cbv iota.
    change ("}" ++ rest) with (String "}" rest).
    rewrite (parse_members_text gap (indent ++ gap) (break gap indent)
               ((k, x) :: xs) Hind' Hclose IH Huniq);
      [| discriminate | simpl in Hfuel |- *; lia].
    rewrite (obj_of_members_unique _ Hnd).
    rewrite skip_ws_all_ws by exact Hopen.
    rewrite map_cons, concat_cons. unfold QuoteJSONString, dq.
    simpl append. simpl skip_ws. reflexivity.
Qed.

(** ** The fuel of [JSON_parse] is enough *)

Lemma concat_length_bound {A : Type} (sep : string) (f : A -> string)
    (size : A -> nat) (l : list A) :
  1 <= String.length sep ->
  Forall (fun a => size a <= String.length (f a)) l ->
  fold_right (fun a n => S (size a + n)) 0 l
  <= S (String.length (String.concat sep (map f l))).
Proof.
  intros Hsep Hall. induction Hall as [|x xs Hx Hxs IH]; [simpl; lia|].
  rewrite map_cons.
  change (fold_right (fun a n => S (size a + n)) 0 (x :: xs))
    with (S (size x + fold_right (fun a n => S (size a + n)) 0 xs)).
  destruct xs as [|y ys].
  - simpl. lia.
  - rewrite concat_more by discriminate.
    rewrite !length_append. lia.
Qed.

Lemma fold_members_size (members : list (string * json)) :
  fold_right (fun kv n => match kv with (_, x) => S (json_size x + n) end)
    0 members
  = fold_right (fun kv n => S (json_size (snd kv) + n)) 0 members.
Proof.
  induction members as [|[k x] members IH]; simpl; [reflexivity|].
  now rewrite IH.
Qed.

Lemma json_size_le_length (gap : string) (v : json) :
  forall indent,
    json_size v <= String.length (SerializeJSONProperty gap indent v).
Proof.
  induction v as [|b|n|s|items IH|members IH] using json_induction;
    intros indent.
  - simpl. lia.
  - destruct b; simpl; lia.
  - simpl. destruct (Number_toString_head n) as (c & r & E & _).
    rewrite E. simpl. lia.
  - simpl. lia.
  - destruct items as [|x xs]; [simpl; lia|].
    rewrite serialize_array, serialize_parts_nonempty by discriminate.
    rewrite !length_append.
    pose proof (concat_length_bound ("," ++ break gap (indent ++ gap))
                  (SerializeJSONProperty gap (indent ++ gap)) json_size
                  (x :: xs)) as Hb.
    assert (Hall : Forall
                     (fun a => json_size a
                               <= String.length
                                    (SerializeJSONProperty gap (indent ++ gap) a))
                     (x :: xs)).
    { eapply Forall_impl; [|exact IH]. intros a Ha. apply Ha. }
    specialize (Hb ltac:(simpl; lia) Hall).
    change (json_size (JArray (x :: xs)))
      with (S (fold_right (fun a n => S (json_size a + n)) 0 (x :: xs))).
    change (String.length "[") with 1. change (String.length "]") with 1.
    lia.
  - destruct members as [|kx xs]; [simpl; lia|].
    rewrite serialize_object, serialize_parts_nonempty by discriminate.
    rewrite !length_append.
    pose proof (concat_length_bound ("," ++ break gap (indent ++ gap))
                  (fun kv : string * json =>
                     let (k, x) := kv in
                     QuoteJSONString k
                       ++ (if (gap =? "")%string then ":" else ": ")
                       ++ SerializeJSONProperty gap (indent ++ gap) x)
                  (fun kv => json_size (snd kv))
                  (kx :: xs)) as Hb.
    assert (Hall : Forall
                     (fun kv : string * json =>
                        json_size (snd kv)
                        <= String.length
                             (let (k, x) := kv in
                              QuoteJSONString k
                                ++ (if (gap =? "")%string then ":" else ": ")
                                ++ SerializeJSONProperty gap (indent ++ gap) x))
                     (kx :: xs)).
    { eapply Forall_impl; [|exact IH]. intros [k a] Ha. simpl in *.
      rewrite !length_append. specialize (Ha (indent ++ gap)). lia. }
    specialize (Hb ltac:(simpl; lia) Hall).
    change (json_size (JObject (kx :: xs)))
      with (S (fold_right
                 (fun kv n => match kv with (_, x) => S (json_size x + n) end)
                 0 (kx :: xs))).
    rewrite fold_members_size.
    change (String.length "{") with 1. change (String.length "}") with 1.
    lia.
Qed.

(** [JSON.parse] undoes [JSON.stringify], with any gap of white space. *)
Lemma JSON_parse_serialize (gap : string) (v : json) :
  all_ws gap = true ->
  unique_keys v ->
  JSON_parse (SerializeJSONProperty gap "" v) = Some v.
Proof.
  intros Hgap Huniq. unfold JSON_parse.
  pose proof (parse_value_serialize gap Hgap v "" ""
                (S (String.length (SerializeJSONProperty gap "" v)))
                eq_refl Huniq) as H.
  rewrite append_nil_r in H. rewrite H.
  - reflexivity.
  - pose proof (json_size_le_length gap v ""). lia.
  - reflexivity.
Qed.

Lemma JSON_parse_stringify_space (v : json) (space : nat) :
  unique_keys v ->
  JSON_parse (JSON_stringify_space v space) = Some v.
Proof.
  intros H. unfold JSON_stringify_space.
  apply JSON_parse_serialize; [apply all_ws_spaces | exact H].
Qed.

Lemma JSON_parse_stringify (v : json) :
  unique_keys v -> JSON_parse (JSON_stringify v) = Some v.
Proof. intros H. now apply JSON_parse_serialize. Qed.

(** ** The value returned on success *)

(** Within the fragment of JSON that the model covers (integral numbers
    printed in plain decimal, strings of character codes below 256):
    when the remote end answers with the value [R], the handler returns
    [JSON.stringify(R, null, 2)], and [JSON.parse] of that string is [R]
    itself. *)
Theorem response_returned_as_indented_json (this : host) (node : INode)
    (op : string) (input : obj) (t : list event) (c : credentials)
    (R : json) :
  getCredentials this "firecrawlApi" = Ok c ->
  httpRequest this (firecrawl_request c op input) = Ok R ->
  unique_keys R ->
  fst (createToolHandler this node op input t)
  = Ok (JSON_stringify_space R 2)
  /\ JSON_parse (JSON_stringify_space R 2) = Some R.
Proof.
  intros Hc Hr Huniq. split.
  - pose proof (makeFirecrawlRequest_sent this op input (dispatched t input)
                  c Hc) as Hm.
    rewrite Hr in Hm.
    now rewrite (createToolHandler_success this node op input t _ R Hm).
  - now apply JSON_parse_stringify_space.
Qed.

Lemma response_returned_as_indented_json_witness :
  fst (createToolHandler (example_host "crawl" "" (Ok crawl_answer))
         example_node "crawl" crawl_input [])
  = Ok ("{" ++ nl ++ "  " ++ q "id" ++ ": " ++ q "job-123" ++ nl ++ "}")
  /\ JSON_parse ("{" ++ nl ++ "  " ++ q "id" ++ ": " ++ q "job-123" ++ nl ++ "}")
     = Some crawl_answer.
Proof.
  apply (response_returned_as_indented_json
           (example_host "crawl" "" (Ok crawl_answer)) example_node "crawl"
           crawl_input [] example_credentials crawl_answer).
  - reflexivity.
  - reflexivity.
  - simpl. repeat constructor. simpl. tauto.
Defined.

(** The map scenario of the specification: the returned string is the
    response itself, indented by two spaces. *)
Example map_scenario :
  fst (createToolHandler (example_host "map" "" (Ok map_answer))
         example_node "map" map_input [])
  = Ok (lines [ "{";
                "  " ++ q "links" ++ ": [";
                "    " ++ q "https://example.com/a";
                "  ]";
                "}" ]).
Proof. reflexivity. Qed.

(** ** What the schemas let through *)

(** A validated object has no key outside the shape of its schema. *)
Lemma zparse_object_keys (shape : list (string * zschema)) (o out : obj) :
  zparse (ZObject shape) (JObject o) = Some (JObject out) ->
  forall k, In k (map fst out) -> In k (map fst shape).
Proof.
  simpl.
  match goal with
  | |- match ?fields shape with _ => _ end = _ -> _ =>
      set (go := fields)
  end.
  destruct (go shape) as [out'|] eqn:E; [|discriminate].
  intros [= <-]. revert out' E.
  induction shape as [|[k0 fs] shape IH]; intros out' E k Hin.
  - simpl in E. injection E as <-. contradiction.
  - simpl in E. destruct (obj_get k0 o) as [x|].
    + destruct (zparse fs x) as [x'|]; [|discriminate].
      destruct (go shape) as [rest|] eqn:Er; [|discriminate].
      injection E as <-. simpl in Hin. destruct Hin as [<-|Hin].
      * now left.
      * right. now apply (IH rest).
    + destruct (is_optional fs); [|discriminate].
      right. now apply (IH out').
Qed.

(** A call through the tool never carries a caller's [integration]
    property to the handler: no schema has such a field, so validation
    strips it and the request carries the marker. *)
Lemma validated_request_carries_marker (op : string) (arg : json)
    (parsed : obj) :
  In op operations ->
  zparse (schema_of op) arg = Some (JObject parsed) ->
  obj_get "integration" (request_body parsed) = Some (JString "n8n-tool").
Proof.
  intros Hop Hparse. rewrite request_body_integration.
  rewrite obj_get_none; [reflexivity|].
  intros Hin.
  assert (Hshape : In "integration" (map fst (zshape (schema_of op)))).
  { destruct arg as [| | | | |o];
      try (each_operation Hop; discriminate Hparse).
    each_operation Hop; exact (zparse_object_keys _ o parsed Hparse _ Hin). }
  each_operation Hop; simpl in Hshape;
    repeat (destruct Hshape as [Hshape|Hshape]; [discriminate Hshape|]);
    contradiction.
Qed.

(** ** The message of a constructed NodeOperationError *)














(** The text built for a server error names no common error code, and
    is the message the caller sees. *)
Example server_error_message :
  free_of_common_errors
    ("Firecrawl API error for crawl: Request failed with status code 500"
       ++ ". Input: " ++ json_text (JObject crawl_input))
  /\ fst (createToolHandler (example_host "crawl" "" (Throw server_error))
            example_node "crawl" crawl_input [])
     = Throw (NodeOperationError example_node
                ("Firecrawl API error for crawl: "
                   ++ "Request failed with status code 500. Input: {"
                   ++ q "url" ++ ":" ++ q "https://example.com/blog" ++ ","
                   ++ q "limit" ++ ":20}")).
Proof.
  split; [|reflexivity].
  unfold free_of_common_errors, COMMON_ERRORS.
  repeat (constructor; [reflexivity|]). constructor.
Qed.




(** An unsupported value that names no common error code is named in
    the message. *)
Example extract_is_named :
  free_of_common_errors "Unknown operation: extract"
  /\ supplyData (example_host "extract" "" (Ok JNull)) 0 []
     = (Throw (NodeOperationError example_node "Unknown operation: extract"),
        []).
Proof.
  split; [|reflexivity].
  unfold free_of_common_errors, COMMON_ERRORS.
  repeat (constructor; [reflexivity|]). constructor.
Qed.

(** ** The requests of the tool *)

(** The keys of a validated object are those of the shape, each at most
    once. *)
Lemma zparse_object_NoDup (shape : list (string * zschema)) (o out : obj) :
  NoDup (map fst shape) ->
  zparse (ZObject shape) (JObject o) = Some (JObject out) ->
  NoDup (map fst out).
Proof.
  intros Hnd. simpl.
  match goal with
  | |- match ?fields shape with _ => _ end = _ -> _ =>
      set (go := fields)
  end.
  destruct (go shape) as [out'|] eqn:E; [|discriminate].
  intros [= <-].
  enough (H : (forall k, In k (map fst out') -> In k (map fst shape))
              /\ NoDup (map fst out')) by apply H.
  revert out' E.
  induction shape as [|[k0 fs] shape IH]; intros out' E.
  - simpl in E. injection E as <-. split; [tauto | constructor].
  - simpl in Hnd. inversion Hnd as [|? ? Hk0 Hnd']; subst.
    simpl in E. destruct (obj_get k0 o) as [x|].
    + destruct (zparse fs x) as [x'|]; [|discriminate].
      destruct (go shape) as [rest|] eqn:Er; [|discriminate].
      injection E as <-.
      destruct (IH Hnd' rest eq_refl) as [Hsub Hrest]. split.
      * intros k [<-|Hin]; [now left | right; now apply Hsub].
      * simpl. constructor; [|exact Hrest].
        intros Hin. apply Hk0. now apply Hsub.
    + destruct (is_optional fs); [|discriminate].
      destruct (IH Hnd' out' E) as [Hsub Hrest]. split.
      * intros k Hin. right. now apply Hsub.
      * exact Hrest.
Qed.

(** No schema names a field twice. *)
Lemma schema_fields_distinct (op : string) :
  In op operations -> NoDup (map fst (zshape (schema_of op))).
Proof.
  intros Hop.
  each_operation Hop; vm_compute;
    repeat (constructor;
            [ let H := fresh in
              intros H;
              repeat (destruct H as [H|H]; [discriminate H|]); exact H |]);
    constructor.
Qed.

(** The body sent for a validated argument: the marker, then the
    validated fields in the order of the schema. *)
Lemma validated_request_body (op : string) (arg : json) (parsed : obj) :
  In op operations ->
  zparse (schema_of op) arg = Some (JObject parsed) ->
  request_body parsed = ("integration", JString "n8n-tool") :: parsed.
Proof.
  intros Hop Hparse. unfold request_body.
  change (("integration", JString "n8n-tool") :: parsed)
    with ([("integration", JString "n8n-tool")] ++ parsed)%list.
  apply spread_fresh.
  pose proof (schema_fields_distinct op Hop) as Hnd.
  assert (Hkeys : NoDup (map fst parsed)
                  /\ forall k, In k (map fst parsed) ->
                               In k (map fst (zshape (schema_of op)))).
  { destruct arg as [| | | | |o];
      try (each_operation Hop; discriminate Hparse).
    each_operation Hop;
      (split;
       [ exact (zparse_object_NoDup _ o parsed Hnd Hparse)
       | exact (zparse_object_keys _ o parsed Hparse) ]). }
  destruct Hkeys as [Hnd' Hsub].
  simpl. constructor; [|exact Hnd'].
  intros Hin. apply Hsub in Hin.
  each_operation Hop; simpl in Hin;
    repeat (destruct Hin as [Hin|Hin]; [discriminate Hin|]);
    contradiction.
Qed.

(** C1: for each of the four operations, every request that a call of
    the constructed tool sends carries [integration: "n8n-tool"] in its
    body, whatever the caller's argument holds: a caller's own
    [integration] property is no field of the schema and does not reach
    the body.  A call with an accepted argument and resolved credentials
    does send such a request. *)
Theorem tool_request_carries_marker (this : host) (itemIndex : nat)
    (op : string) (t0 : list event) :
  In op operations ->
  getNodeParameter this "toolType" itemIndex "scrape" = op ->
  exists tool,
    supplyData this itemIndex t0 = (Ok {| response := tool |}, t0)
    /\ (forall (arg : json) (t es : list event) (req : http_request),
          snd (tool_call tool arg t) = (t ++ es)%list ->
          In (HttpRequest req) es ->
          obj_get "integration" (body req) = Some (JString "n8n-tool"))
    /\ (forall (arg : json) (parsed : obj) (c : credentials)
               (t : list event),
          zparse (schema tool) arg = Some (JObject parsed) ->
          getCredentials this "firecrawlApi" = Ok c ->
          exists es req,
            snd (tool_call tool arg t) = (t ++ es)%list
            /\ http_requests es = [req]
            /\ obj_get "integration" (body req) = Some (JString "n8n-tool")).
Proof.
  intros Hin Hop. eexists.
  split; [apply (supplyData_known this itemIndex t0 op Hin Hop)|].
  unfold tool_call. cbn [schema func]. split.
  - intros arg t es req Hes Hreq.
    destruct (zparse (schema_of op) arg) as [[| | | | |parsed]|] eqn:Hparse;
      try (simpl in Hes;
           rewrite <- (List.app_nil_r t) in Hes at 1;
           apply app_inv_head in Hes; subst es; contradiction).
    destruct (createToolHandler_trace this (getNode this) op parsed t)
      as (es' & Hes' & Hsent).
    rewrite Hes' in Hes. apply app_inv_head in Hes. subst es'.
    apply in_http_requests in Hreq. rewrite Hsent in Hreq.
    destruct (getCredentials this "firecrawlApi") as [c|e];
      [|contradiction].
    destruct Hreq as [<-|[]].
    exact (validated_request_carries_marker op arg parsed Hin Hparse).
  - intros arg parsed c t Hparse Hc. rewrite Hparse.
    destruct (createToolHandler_trace this (getNode this) op parsed t)
      as (es & Hes & Hsent).
    rewrite Hc in Hsent.
    exists es, (firecrawl_request c op parsed).
    split; [exact Hes|]. split; [exact Hsent|].
    exact (validated_request_carries_marker op arg parsed Hin Hparse).
Qed.

Lemma tool_request_carries_marker_witness :
  exists tool,
    supplyData (example_host "scrape" "" (Ok JNull)) 0 []
    = (Ok {| response := tool |}, [])
    /\ (forall (arg : json) (t es : list event) (req : http_request),
          snd (tool_call tool arg t) = (t ++ es)%list ->
          In (HttpRequest req) es ->
          obj_get "integration" (body req) = Some (JString "n8n-tool"))
    /\ (forall (arg : json) (parsed : obj) (c : credentials)
               (t : list event),
          zparse (schema tool) arg = Some (JObject parsed) ->
          getCredentials (example_host "scrape" "" (Ok JNull)) "firecrawlApi"
          = Ok c ->
          exists es req,
            snd (tool_call tool arg t) = (t ++ es)%list
            /\ http_requests es = [req]
            /\ obj_get "integration" (body req) = Some (JString "n8n-tool")).
Proof.
  apply (tool_request_carries_marker
           (example_host "scrape" "" (Ok JNull)) 0 "scrape" []).
  - simpl. tauto.
  - reflexivity.
Defined.

(** An argument with its own [integration] property: the scrape tool
    sends the marker, not the caller's value. *)
Example marked_argument_is_sent_with_marker :
  exists tool,
    supplyData (example_host "scrape" "" (Ok JNull)) 0 []
    = (Ok {| response := tool |}, [])
    /\ map body (http_requests (snd (tool_call tool (JObject marked_input) [])))
       = [ [ ("integration", JString "n8n-tool");
             ("url", JString "https://example.com") ] ].
Proof. eexists. split; reflexivity. Qed.

(** C3, as stated, fails: a host that does not resolve the
    [firecrawlApi] credentials.  The argument is accepted by the schema
    of the tool, and the call sends no request. *)
Lemma accepted_call_without_credentials_sends_nothing :
  exists tool,
    supplyData no_credentials_host 0 [] = (Ok {| response := tool |}, [])
    /\ name tool = "firecrawl_scrape"
    /\ zparse (schema tool) (JObject map_input) = Some (JObject map_input)
    /\ http_requests (snd (tool_call tool (JObject map_input) [])) = [].
Proof. eexists. repeat split. Qed.

(** C3, amended: for each of the four operations and every argument
    that the schema of the tool accepts, one call of the tool for which
    the host resolves the [firecrawlApi] credentials sends exactly one
    request: a POST to the base URL of the credentials (the default
    [https://api.firecrawl.dev/v2] when it is unset or empty), a slash
    and the operation name, with the headers [Authorization: Bearer
    <apiKey>], [Content-Type: application/json] and [Accept:
    application/json], and with the body [integration: "n8n-tool"]
    followed by the validated fields.  When the credentials are not
    resolved, the call sends no request. *)
Theorem tool_call_sends_one_request (this : host) (itemIndex : nat)
    (op : string) (t0 : list event) :
  In op operations ->
  getNodeParameter this "toolType" itemIndex "scrape" = op ->
  exists tool,
    supplyData this itemIndex t0 = (Ok {| response := tool |}, t0)
    /\ forall (arg : json) (parsed : obj) (t : list event),
         zparse (schema tool) arg = Some (JObject parsed) ->
         exists es,
           snd (tool_call tool arg t) = (t ++ es)%list
           /\ http_requests es =
              match getCredentials this "firecrawlApi" with
              | Ok c =>
                  [ {| method := "POST";
                       url :=
                         match baseUrl c with
                         | Some (String _ _ as given) => given
                         | _ => "https://api.firecrawl.dev/v2"
                         end ++ "/" ++ op;
                       headers :=
                         [ ("Authorization", "Bearer " ++ apiKey c);
                           ("Content-Type", "application/json");
                           ("Accept", "application/json") ];
                       body := ("integration", JString "n8n-tool") :: parsed;
                       json_option := true |} ]
              | Throw _ => []
              end.
Proof.
  intros Hin Hop. eexists.
  split; [apply (supplyData_known this itemIndex t0 op Hin Hop)|].
  unfold tool_call. cbn [schema func]. intros arg parsed t Hparse.
  rewrite Hparse.
  destruct (createToolHandler_trace this (getNode this) op parsed t)
    as (es & Hes & Hsent).
  exists es. split; [exact Hes|]. rewrite Hsent.
  destruct (getCredentials this "firecrawlApi") as [c|e]; [|reflexivity].
  unfold firecrawl_request.
  rewrite (validated_request_body op arg parsed Hin Hparse).
  unfold resolve_baseUrl, or_else.
  destruct (baseUrl c) as [[|a given]|]; reflexivity.
Qed.

Lemma tool_call_sends_one_request_witness :
  exists tool,
    supplyData (example_host "map" "" (Ok map_answer)) 0 []
    = (Ok {| response := tool |}, [])
    /\ forall (arg : json) (parsed : obj) (t : list event),
         zparse (schema tool) arg = Some (JObject parsed) ->
         exists es,
           snd (tool_call tool arg t) = (t ++ es)%list
           /\ http_requests es =
              [ {| method := "POST";
                   url := "https://api.firecrawl.dev/v2" ++ "/" ++ "map";
                   headers :=
                     [ ("Authorization", "Bearer " ++ "fc-key");
                       ("Content-Type", "application/json");
                       ("Accept", "application/json") ];
                   body := ("integration", JString "n8n-tool") :: parsed;
                   json_option := true |} ].
Proof.
  apply (tool_call_sends_one_request
           (example_host "map" "" (Ok map_answer)) 0 "map" []).
  - simpl. tauto.
  - reflexivity.
Defined.

(** The request of a map call, and that of a call with a base URL of the
    credentials' own. *)
Example map_request :
  exists tool,
    supplyData (example_host "map" "" (Ok map_answer)) 0 []
    = (Ok {| response := tool |}, [])
    /\ http_requests (snd (tool_call tool (JObject map_input) []))
       = [ {| method := "POST";
              url := "https://api.firecrawl.dev/v2/map";
              headers :=
                [ ("Authorization", "Bearer fc-key");
                  ("Content-Type", "application/json");
                  ("Accept", "application/json") ];
              body := [ ("integration", JString "n8n-tool");
                        ("url", JString "https://example.com") ];
              json_option := true |} ].
Proof. eexists. split; reflexivity. Qed.

(* ===================================================================== *)
(** * Part III: further properties of the code *)
(* ===================================================================== *)

(** ** The request that [makeFirecrawlRequest] sends *)

(** X1 (lines 25-31): the request is a POST to the stored base URL joined
    with the operation; when the credentials store no base URL, or the
    empty string, it goes to [https://api.firecrawl.dev/v2]. *)
Theorem request_url_falls_back_to_default (this : host) (op : string)
    (input : obj) (t : list event) (c : credentials) :
  getCredentials this "firecrawlApi" = Ok c ->
  exists req,
    snd (makeFirecrawlRequest this op input t) = (t ++ [HttpRequest req])%list
    /\ method req = "POST"
    /\ (baseUrl c = None \/ baseUrl c = Some "" ->
        url req = "https://api.firecrawl.dev/v2/" ++ op)
    /\ (forall u, baseUrl c = Some u -> u <> "" -> url req = u ++ "/" ++ op).
Proof.
  intros Hc. exists (firecrawl_request c op input).
  rewrite (makeFirecrawlRequest_sent this op input t c Hc).
  split; [reflexivity|]. split; [reflexivity|]. split.
  - intros [H|H]; simpl; unfold resolve_baseUrl; rewrite H; reflexivity.
  - intros u Hu Hne. simpl. unfold resolve_baseUrl. rewrite Hu.
    now rewrite or_else_nonempty.
Qed.

Lemma request_url_falls_back_to_default_witness :
  exists req,
    snd (makeFirecrawlRequest (host_with_baseUrl (Some "") (Ok JNull)) "map"
           map_input [])
    = ([] ++ [HttpRequest req])%list
    /\ method req = "POST"
    /\ (Some "" = None \/ Some "" = Some "" ->
        url req = "https://api.firecrawl.dev/v2/" ++ "map")
    /\ (forall u, Some "" = Some u -> u <> "" -> url req = u ++ "/" ++ "map").
Proof.
  apply (request_url_falls_back_to_default
           (host_with_baseUrl (Some "") (Ok JNull)) "map" map_input []
           {| baseUrl := Some ""; apiKey := "fc-key" |}).
  reflexivity.
Defined.

(** X2 (lines 25, 171-187): when the credential lookup fails, the
    invocation records its input, sends no HTTP request, and throws. *)
Theorem no_request_without_credentials (this : host) (node : INode)
    (op : string) (input : obj) (t : list event) (e : js_error) :
  getCredentials this "firecrawlApi" = Throw e ->
  exists err es,
    createToolHandler this node op input t
    = (Throw err, (t ++ AddInputData AiTool (items_of (JObject input)) :: es)%list)
    /\ http_requests es = []
    /\ (instanceof_NodeOperationError e = true -> err = e /\ es = []).
Proof.
  intros Hc.
  pose proof (makeFirecrawlRequest_rejected this op input (dispatched t input)
                e Hc) as Hm.
  destruct (instanceof_NodeOperationError e) eqn:Ek.
  - exists e, []. rewrite (createToolHandler_passthrough _ node _ _ _ _ _ Hm Ek).
    repeat split.
  - do 2 eexists. rewrite (createToolHandler_wrapped _ node _ _ _ _ _ Hm Ek).
    unfold dispatched. rewrite <- List.app_assoc. simpl.
    split; [reflexivity|]. split; [reflexivity | discriminate].
Qed.

Lemma no_request_without_credentials_witness :
  exists err es,
    createToolHandler no_credentials_host example_node "scrape" map_input []
    = (Throw err,
       ([] ++ AddInputData AiTool (items_of (JObject map_input)) :: es)%list)
    /\ http_requests es = []
    /\ (instanceof_NodeOperationError
          (NodeOperationError example_node
             "Node does not have any credentials set") = true ->
        err = NodeOperationError example_node
                "Node does not have any credentials set"
        /\ es = []).
Proof.
  apply (no_request_without_credentials no_credentials_host example_node
           "scrape" map_input []).
  reflexivity.
Defined.

(** ** The body of the request *)

Lemma obj_get_some_in (k : string) (o : obj) (v : json) :
  obj_get k o = Some v -> In k (map fst o).
Proof.
  induction o as [|[k1 v1] o IH]; simpl; [discriminate|].
  destruct (obj_get k o) as [w|].
  - intros H. right. now apply IH.
  - destruct (String.eqb_spec k k1) as [->|]; [now left | discriminate].
Qed.

Lemma obj_get_cons (k k1 : string) (v1 : json) (o : obj) :
  obj_get k ((k1, v1) :: o) =
  match obj_get k o with
  | Some w => Some w
  | None => if (k =? k1)%string then Some v1 else None
  end.
Proof. reflexivity. Qed.

Lemma replace_absent (k : string) (v : json) (o : obj) :
  ~ In k (map fst o) ->
  map (fun kv => if (fst kv =? k)%string then (fst kv, v) else kv) o = o.
Proof.
  induction o as [|[k1 v1] o IH]; simpl; intros H; [reflexivity|].
  rewrite IH by tauto.
  destruct (String.eqb_spec k1 k) as [->|]; [tauto | reflexivity].
Qed.

Lemma obj_without_keys (k : string) (o : obj) :
  NoDup (map fst o) -> NoDup (map fst (obj_without k o)).
Proof.
  unfold obj_without. induction o as [|[k1 v1] o IH]; simpl; intros H.
  - constructor.
  - inversion H as [|? ? Hnotin Hnd]; subst.
    destruct (k1 =? k)%string; simpl; [now apply IH|].
    constructor; [|now apply IH].
    intros Hin. apply Hnotin.
    apply in_map_iff in Hin. destruct Hin as (kv & Hk & Hin).
    apply filter_In in Hin. apply in_map_iff. exists kv. tauto.
Qed.

(** Spreading onto an object that starts with the marker. *)
Lemma spread_onto_marker (source rest : obj) (v0 : json) :
  ~ In "integration" (map fst rest) ->
  NoDup (map fst rest ++ map fst (obj_without "integration" source))%list ->
  spread (("integration", v0) :: rest) source =
  ("integration",
   match obj_get "integration" source with Some v => v | None => v0 end)
    :: (rest ++ obj_without "integration" source)%list.
Proof.
  unfold spread. revert rest v0.
  induction source as [|[k v] source IH]; intros rest v0 Hrest Hnd.
  - simpl. now rewrite List.app_nil_r.
  - cbn [fold_left fst snd]. rewrite obj_get_cons.
    unfold obj_without in Hnd |- *. cbn [filter fst] in Hnd |- *.
    destruct (String.eqb_spec k "integration") as [->|Hk];
      cbn [negb] in Hnd |- *.
    + assert (E : obj_set "integration" v (("integration", v0) :: rest)
                  = ("integration", v) :: rest).
      { unfold obj_set, obj_has. simpl.
        rewrite (obj_get_none _ _ Hrest). simpl.
        now rewrite (replace_absent _ _ _ Hrest). }
      rewrite E, (IH rest v Hrest Hnd), String.eqb_refl.
      now destruct (obj_get "integration" source).
    + cbn [map fst] in Hnd.
      assert (Hfresh : ~ In k (map fst rest)).
      { intros Hin. apply NoDup_remove_2 in Hnd. apply Hnd.
        apply in_or_app. now left. }
      assert (E : obj_set k v (("integration", v0) :: rest)
                  = ("integration", v0) :: (rest ++ [(k, v)])%list).
      { unfold obj_set, obj_has. rewrite obj_get_cons.
        rewrite (obj_get_none _ _ Hfresh).
        destruct (String.eqb_spec k "integration"); [congruence|reflexivity]. }
      rewrite E, (IH (rest ++ [(k, v)])%list v0).
      * rewrite <- List.app_assoc.
        destruct (String.eqb_spec "integration" k); [congruence|].
        now destruct (obj_get "integration" source).
      * rewrite map_app. simpl. intros Hin.
        apply in_app_or in Hin. destruct Hin as [Hin|[Hin|[]]]; [tauto|].
        congruence.
      * rewrite map_app, <- List.app_assoc. simpl. exact Hnd.
Qed.

(** X3 (lines 37-40): for an input with one property per key, none of
    them an array index, the body is the [integration] property followed
    by the other properties of the input, in the input's order and with
    the input's values; the value of [integration] is the input's when
    it has one, the marker otherwise; and the body has one property per
    key.  (The model keeps insertion order, which is the property order
    of an object without index keys; hence the second hypothesis.) *)
Theorem request_body_shape (input : obj) :
  NoDup (map fst input) ->
  Forall (fun k => digits_only k = false) (map fst input) ->
  request_body input =
  ("integration",
   match obj_get "integration" input with
   | Some v => v
   | None => JString "n8n-tool"
   end) :: obj_without "integration" input
  /\ NoDup (map fst (request_body input))
  /\ (forall k, k <> "integration" ->
        obj_get k (request_body input) = obj_get k input).
Proof.
  intros Hnd _.
  assert (E : request_body input =
              ("integration",
               match obj_get "integration" input with
               | Some v => v
               | None => JString "n8n-tool"
               end) :: obj_without "integration" input).
  { unfold request_body.
    rewrite (spread_onto_marker input [] (JString "n8n-tool")).
    - reflexivity.
    - intros [].
    - simpl. now apply obj_without_keys. }
  split; [exact E|]. split.
  - rewrite E. simpl. constructor; [|now apply obj_without_keys].
    intros Hin. apply in_map_iff in Hin. destruct Hin as ([k v] & Hk & Hin).
    apply filter_In in Hin. simpl in *. subst k. destruct Hin as [_ Hin].
    discriminate Hin.
  - intros k Hk. now apply request_body_other.
Qed.

Lemma request_body_shape_witness :
  request_body marked_input =
  ("integration",
   match obj_get "integration" marked_input with
   | Some v => v
   | None => JString "n8n-tool"
   end) :: obj_without "integration" marked_input
  /\ NoDup (map fst (request_body marked_input))
  /\ (forall k, k <> "integration" ->
        obj_get k (request_body marked_input) = obj_get k marked_input).
Proof.
  apply (request_body_shape marked_input).
  - simpl. repeat constructor; simpl; intuition discriminate.
  - simpl. repeat constructor.
Defined.

(** ** How an invocation ends *)

(** The run of the handler, by the outcome of the outbound call. *)
Lemma createToolHandler_outcomes (this : host) (node : INode) (op : string)
    (input : obj) (t : list event) :
  exists t2,
    (exists es, t2 = (dispatched t input ++ es)%list
                /\ http_requests es =
                   match getCredentials this "firecrawlApi" with
                   | Ok c => [firecrawl_request c op input]
                   | Throw _ => []
                   end
                /\ filter is_AddInputData es = []
                /\ filter is_AddOutputData es = [])
    /\
    ((exists c R,
        getCredentials this "firecrawlApi" = Ok c
        /\ httpRequest this (firecrawl_request c op input) = Ok R
        /\ createToolHandler this node op input t =
           (Ok (JSON_stringify_space R 2),
            (t2 ++ [AddOutputData AiTool (runIndex this t)
                      (OutputItems (items_of (JObject [("response", R)])))])%list))
     \/ (exists error,
           instanceof_NodeOperationError error = true
           /\ createToolHandler this node op input t = (Throw error, t2))
     \/ (exists message,
           createToolHandler this node op input t =
           (Throw (NodeOperationError node message),
            (t2 ++ [AddOutputData AiTool (runIndex this t)
                      (OutputError (NodeOperationError node message))])%list))).
Proof.
  destruct (getCredentials this "firecrawlApi") as [c|e0] eqn:Ec.
  - pose proof (makeFirecrawlRequest_sent this op input (dispatched t input)
                  c Ec) as Hm.
    eexists. split.
    { exists [HttpRequest (firecrawl_request c op input)]. repeat split. }
    destruct (httpRequest this (firecrawl_request c op input)) as [R|e] eqn:Er.
    + left. exists c, R. split; [reflexivity|]. split; [exact Er|].
      apply (createToolHandler_success this node op input t _ R Hm).
    + destruct (instanceof_NodeOperationError e) eqn:Ek.
      * right. left. exists e. split; [exact Ek|].
        apply (createToolHandler_passthrough this node op input t _ e Hm Ek).
      * right. right. eexists.
        apply (createToolHandler_wrapped this node op input t _ e Hm Ek).
  - pose proof (makeFirecrawlRequest_rejected this op input
                  (dispatched t input) e0 Ec) as Hm.
    exists (dispatched t input). split.
    { exists []. rewrite List.app_nil_r. repeat split. }
    destruct (instanceof_NodeOperationError e0) eqn:Ek.
    + right. left. exists e0. split; [exact Ek|].
      apply (createToolHandler_passthrough this node op input t _ e0 Hm Ek).
    + right. right. eexists.
      apply (createToolHandler_wrapped this node op input t _ e0 Hm Ek).
Qed.

(** X4 (lines 176-187): whatever the handler throws is a
    NodeOperationError: one that passed through, or the one it built. *)
Theorem handler_throws_only_NodeOperationError (this : host) (node : INode)
    (op : string) (input : obj) (t : list event) (e : js_error) :
  fst (createToolHandler this node op input t) = Throw e ->
  instanceof_NodeOperationError e = true.
Proof.
  intros H.
  destruct (createToolHandler_outcomes this node op input t)
    as (t2 & _ & [(c & R & _ & _ & E)|[(error & Hk & E)|(message & E)]]);
    rewrite E in H; simpl in H.
  - discriminate H.
  - now injection H as <-.
  - now injection H as <-.
Qed.

Lemma handler_throws_only_NodeOperationError_witness :
  instanceof_NodeOperationError
    (NodeOperationError example_node
       "The service refused the connection - perhaps it is offline") = true.
Proof.
  apply (handler_throws_only_NodeOperationError
           (example_host "crawl" "" (Throw refused)) example_node "crawl"
           crawl_input []).
  reflexivity.
Defined.

(** X5 (lines 171-175): the handler returns a value exactly when the
    credentials resolve and the HTTP helper resolves, and the value is
    then the indented text of the response. *)
Theorem handler_returns_iff_request_resolves (this : host) (node : INode)
    (op : string) (input : obj) (t : list event) (s : string) :
  fst (createToolHandler this node op input t) = Ok s
  <-> exists c R,
        getCredentials this "firecrawlApi" = Ok c
        /\ httpRequest this (firecrawl_request c op input) = Ok R
        /\ s = JSON_stringify_space R 2.
Proof.
  split.
  - intros H.
    destruct (createToolHandler_outcomes this node op input t)
      as (t2 & _ & [(c & R & Hc & Hr & E)|[(error & Hk & E)|(message & E)]]);
      rewrite E in H; simpl in H; try discriminate H.
    injection H as <-. now exists c, R.
  - intros (c & R & Hc & Hr & ->).
    pose proof (makeFirecrawlRequest_sent this op input (dispatched t input)
                  c Hc) as Hm.
    rewrite Hr in Hm.
    now rewrite (createToolHandler_success this node op input t _ R Hm).
Qed.

(** X6 (lines 169-175): a successful invocation adds three events to the
    trace, in this order: the input as [[[{json: input}]]], the request,
    and [[[{json: {response}}]]] on the output channel under the index
    that [addInputData] returned. *)
Theorem success_is_recorded (this : host) (node : INode) (op : string)
    (input : obj) (t : list event) (c : credentials) (R : json) :
  getCredentials this "firecrawlApi" = Ok c ->
  httpRequest this (firecrawl_request c op input) = Ok R ->
  snd (createToolHandler this node op input t) =
  (t ++ [ AddInputData AiTool
            (JArray [JArray [JObject [("json", JObject input)]]]);
          HttpRequest (firecrawl_request c op input);
          AddOutputData AiTool (runIndex this t)
            (OutputItems
               (JArray
                  [JArray
                     [JObject [("json", JObject [("response", R)])]]])) ])%list.
Proof.
  intros Hc Hr.
  pose proof (makeFirecrawlRequest_sent this op input (dispatched t input)
                c Hc) as Hm.
  rewrite Hr in Hm.
  rewrite (createToolHandler_success this node op input t _ R Hm).
  unfold dispatched. simpl. now rewrite <- !List.app_assoc.
Qed.

Lemma success_is_recorded_witness :
  snd (createToolHandler (example_host "map" "" (Ok map_answer)) example_node
         "map" map_input []) =
  ([] ++ [ AddInputData AiTool
             (JArray [JArray [JObject [("json", JObject map_input)]]]);
           HttpRequest (firecrawl_request example_credentials "map" map_input);
           AddOutputData AiTool 0
             (OutputItems
                (JArray
                   [JArray
                      [JObject
                         [("json", JObject [("response", map_answer)])]]])) ])%list.
Proof.
  apply (success_is_recorded (example_host "map" "" (Ok map_answer))
           example_node "map" map_input [] example_credentials map_answer).
  - reflexivity.
  - reflexivity.
Defined.

Lemma filter_app_single {A : Type} (f : A -> bool) (l : list A) (a : A) :
  filter f (l ++ [a])%list = (filter f l ++ if f a then [a] else [])%list.
Proof. rewrite filter_app. reflexivity. Qed.

(** X7 (lines 169-187): in every invocation the input is recorded first
    and once; at most one request is sent and at most one outcome is
    recorded, after the request; every record goes to a connection the
    node declares as output, and the outcome carries the index that
    [addInputData] returned. *)
Theorem tracking_discipline (this : host) (node : INode) (op : string)
    (input : obj) (t : list event) :
  exists es,
    snd (createToolHandler this node op input t)
    = (t ++ AddInputData AiTool (items_of (JObject input)) :: es)%list
    /\ In AiTool (node_outputs FirecrawlTool_description)
    /\ filter is_AddInputData es = []
    /\ List.length (http_requests es) <= 1
    /\ List.length (filter is_AddOutputData es) <= 1
    /\ (forall connection index data before after,
          es = (before ++ AddOutputData connection index data :: after)%list ->
          In connection (node_outputs FirecrawlTool_description)
          /\ index = runIndex this t
          /\ after = []).
Proof.
  destruct (createToolHandler_outcomes this node op input t)
    as (t2 & (es & -> & Hreq & Hin & Hout) & Hcases).
  assert (Hlen : List.length (http_requests es) <= 1).
  { rewrite Hreq. destruct (getCredentials this "firecrawlApi"); simpl; lia. }
  assert (Hnone : forall connection index data before after,
             es <> (before ++ AddOutputData connection index data :: after)%list).
  { intros connection index data before after ->.
    rewrite filter_app in Hout. simpl in Hout.
    now destruct (filter is_AddOutputData before). }
  assert (Hlast : forall (x : event) before after connection index data,
             (es ++ [x] = before ++ AddOutputData connection index data :: after)%list ->
             x = AddOutputData connection index data /\ after = []).
  { intros x before after connection index data E.
    destruct after as [|a after] using rev_ind.
    - apply app_inj_tail in E. now destruct E as [_ ->].
    - clear IHafter. exfalso.
      rewrite app_comm_cons, List.app_assoc in E.
      apply app_inj_tail in E. destruct E as [E _].
      now apply (Hnone connection index data before after). }
  destruct Hcases as [(c & R & _ & _ & E)|[(error & Hk & E)|(message & E)]];
    rewrite E; unfold dispatched; simpl snd; rewrite <- ?List.app_assoc;
    simpl.
  - exists (es ++ [AddOutputData AiTool (runIndex this t)
                     (OutputItems (items_of (JObject [("response", R)])))])%list.
    split; [reflexivity|]. split; [now left|].
    rewrite !filter_app_single. simpl. rewrite Hin, Hout.
    unfold http_requests in *. rewrite flat_map_app. simpl.
    rewrite List.app_nil_r.
    split; [reflexivity|]. split; [exact Hlen|]. split; [simpl; lia|].
    intros connection index data before after Ees.
    destruct (Hlast _ _ _ _ _ _ Ees) as [[= <- <- <-] ->].
    repeat split. now left.
  - exists es. split; [reflexivity|]. split; [now left|].
    split; [exact Hin|]. split; [exact Hlen|]. rewrite Hout.
    split; [simpl; lia|].
    intros connection index data before after Ees.
    exfalso. now apply (Hnone connection index data before after).
  - exists (es ++ [AddOutputData AiTool (runIndex this t)
                     (OutputError (NodeOperationError node message))])%list.
    split; [reflexivity|]. split; [now left|].
    rewrite !filter_app_single. simpl. rewrite Hin, Hout.
    unfold http_requests in *. rewrite flat_map_app. simpl.
    rewrite List.app_nil_r.
    split; [reflexivity|]. split; [exact Hlen|]. split; [simpl; lia|].
    intros connection index data before after Ees.
    destruct (Hlast _ _ _ _ _ _ Ees) as [[= <- <- <-] ->].
    repeat split. now left.
Qed.

(** ** Tool construction, for every configuration *)

Lemma supplyData_inversion (this : host) (itemIndex : nat) (t u : list event)
    (sd : SupplyData) :
  supplyData this itemIndex t = (Ok sd, u) ->
  In (getNodeParameter this "toolType" itemIndex "scrape") operations.
Proof.
  unfold supplyData, operations.
  destruct (String.eqb_spec (getNodeParameter this "toolType" itemIndex "scrape")
              "scrape") as [->|_]; [simpl; tauto|].
  destruct (String.eqb_spec (getNodeParameter this "toolType" itemIndex "scrape")
              "map") as [->|_]; [simpl; tauto|].
  destruct (String.eqb_spec (getNodeParameter this "toolType" itemIndex "scrape")
              "search") as [->|_]; [simpl; tauto|].
  destruct (String.eqb_spec (getNodeParameter this "toolType" itemIndex "scrape")
              "crawl") as [->|_]; [simpl; tauto|].
  discriminate.
Qed.

Lemma supplyData_trace (this : host) (itemIndex : nat) (t : list event) :
  snd (supplyData this itemIndex t) = t.
Proof.
  unfold supplyData.
  repeat match goal with
         | |- context [if ?b then _ else _] => destruct b
         end; reflexivity.
Qed.

(** X8 (lines 103-130, 194-413): [supplyData] builds a tool exactly when
    the configured [toolType] is one of the values the description
    offers for it, whose declared default is one of them; in every case
    it leaves the trace as it was. *)
Theorem tool_is_built_for_offered_values (this : host) (itemIndex : nat)
    (t : list event) :
  ((exists sd, fst (supplyData this itemIndex t) = Ok sd)
   <-> In (getNodeParameter this "toolType" itemIndex "scrape")
          (offered_values "toolType"))
  /\ snd (supplyData this itemIndex t) = t
  /\ (exists d, declared_default "toolType" = Some d
                /\ In d (offered_values "toolType")).
Proof.
  split; [|split].
  - change (offered_values "toolType") with operations. split.
    + intros (sd & H).
      apply (supplyData_inversion this itemIndex t
               (snd (supplyData this itemIndex t)) sd).
      rewrite <- H. now destruct (supplyData this itemIndex t).
    + intros Hin. eexists.
      now rewrite (supplyData_known this itemIndex t _ Hin eq_refl).
  - apply supplyData_trace.
  - exists "scrape". split; [reflexivity | simpl; tauto].
Qed.

(** X9 (line 191): the tool is named [firecrawl_] followed by the
    configured operation, so two tools have the same name only when they
    are built for the same operation, and then they have the same
    schema. *)
Theorem tool_names_do_not_collide (this1 this2 : host) (i1 i2 : nat)
    (t1 t2 u1 u2 : list event) (sd1 sd2 : SupplyData) :
  supplyData this1 i1 t1 = (Ok sd1, u1) ->
  supplyData this2 i2 t2 = (Ok sd2, u2) ->
  name (response sd1)
  = "firecrawl_" ++ getNodeParameter this1 "toolType" i1 "scrape"
  /\ (name (response sd1) = name (response sd2) ->
      getNodeParameter this1 "toolType" i1 "scrape"
      = getNodeParameter this2 "toolType" i2 "scrape"
      /\ schema (response sd1) = schema (response sd2)).
Proof.
  intros H1 H2.
  pose proof (supplyData_inversion _ _ _ _ _ H1) as Hin1.
  pose proof (supplyData_inversion _ _ _ _ _ H2) as Hin2.
  rewrite (supplyData_known this1 i1 t1 _ Hin1 eq_refl) in H1.
  rewrite (supplyData_known this2 i2 t2 _ Hin2 eq_refl) in H2.
  injection H1 as <- _. injection H2 as <- _. simpl.
  split; [reflexivity|].
  intros E. injection E as E. now rewrite E.
Qed.

Lemma tool_names_do_not_collide_witness :
  exists sd1 sd2,
    name (response sd1) = "firecrawl_" ++ "map"
    /\ (name (response sd1) = name (response sd2) ->
        "map" = "crawl" /\ schema (response sd1) = schema (response sd2)).
Proof.
  do 2 eexists.
  apply (tool_names_do_not_collide (example_host "map" "" (Ok JNull))
           (example_host "crawl" "x" (Ok JNull)) 0 0 [] [] [] []).
  - reflexivity.
  - reflexivity.
Defined.

(** X10 (lines 156-157, 129, 135, 199-215): on a host where no parameter
    is set, and on a host where every parameter has its declared default,
    [supplyData] builds the same tool: [firecrawl_scrape], with the scrape
    schema and the built-in scrape description. *)
Theorem unset_parameters_mean_declared_defaults (this1 this2 : host)
    (i1 i2 : nat) (t1 t2 : list event) :
  parameters_unset this1 ->
  parameters_at_defaults this2 ->
  exists tool1 tool2,
    supplyData this1 i1 t1 = (Ok {| response := tool1 |}, t1)
    /\ supplyData this2 i2 t2 = (Ok {| response := tool2 |}, t2)
    /\ name tool1 = "firecrawl_scrape" /\ name tool2 = "firecrawl_scrape"
    /\ description tool1 = scrape_description
    /\ description tool2 = scrape_description
    /\ schema tool1 = scrape_schema /\ schema tool2 = scrape_schema.
Proof.
  intros Hu Hd.
  assert (E1 : getNodeParameter this1 "toolType" i1 "scrape" = "scrape")
    by apply Hu.
  assert (E2 : getNodeParameter this2 "toolType" i2 "scrape" = "scrape")
    by apply Hd.
  assert (D1 : getNodeParameter this1 "description" i1 "" = "") by apply Hu.
  assert (D2 : getNodeParameter this2 "description" i2 "" = "") by apply Hd.
  do 2 eexists.
  split; [apply (supplyData_known this1 i1 t1 "scrape"); [simpl; tauto|exact E1]|].
  split; [apply (supplyData_known this2 i2 t2 "scrape"); [simpl; tauto|exact E2]|].
  simpl. rewrite D1, D2. repeat split.
Qed.

Lemma unset_parameters_mean_declared_defaults_witness :
  exists tool1 tool2,
    supplyData (host_with_baseUrl None (Ok JNull)) 0 []
    = (Ok {| response := tool1 |}, [])
    /\ supplyData defaults_host 0 [] = (Ok {| response := tool2 |}, [])
    /\ name tool1 = "firecrawl_scrape" /\ name tool2 = "firecrawl_scrape"
    /\ description tool1 = scrape_description
    /\ description tool2 = scrape_description
    /\ schema tool1 = scrape_schema /\ schema tool2 = scrape_schema.
Proof.
  apply (unset_parameters_mean_declared_defaults
           (host_with_baseUrl None (Ok JNull)) defaults_host 0 0 [] []).
  - intros parameter itemIndex fallback. reflexivity.
  - intros parameter itemIndex fallback. reflexivity.
Defined.

(** X11 (lines 199, 250, 286, 343): with an empty custom description the
    tool carries the built-in description of its own operation, and the
    four built-in descriptions are different texts. *)
Theorem empty_description_means_template (this : host) (itemIndex : nat)
    (t : list event) (op : string) :
  In op operations ->
  getNodeParameter this "toolType" itemIndex "scrape" = op ->
  getNodeParameter this "description" itemIndex "" = "" ->
  exists tool,
    supplyData this itemIndex t = (Ok {| response := tool |}, t)
    /\ description tool = template_of op
    /\ map template_of operations
       = [scrape_description; map_description; search_description;
          crawl_description]
    /\ NoDup (map template_of operations).
Proof.
  intros Hin Hop Hd. eexists.
  split; [apply (supplyData_known this itemIndex t op Hin Hop)|].
  simpl. rewrite Hd. split; [reflexivity|]. split; [reflexivity|].
  repeat constructor; simpl; intros H;
    repeat (destruct H as [H|H]; [discriminate H|]); exact H.
Qed.

Lemma empty_description_means_template_witness :
  exists tool,
    supplyData (example_host "crawl" "" (Ok JNull)) 0 []
    = (Ok {| response := tool |}, [])
    /\ description tool = template_of "crawl"
    /\ map template_of operations
       = [scrape_description; map_description; search_description;
          crawl_description]
    /\ NoDup (map template_of operations).
Proof.
  apply (empty_description_means_template
           (example_host "crawl" "" (Ok JNull)) 0 [] "crawl").
  - simpl. tauto.
  - reflexivity.
  - reflexivity.
Defined.

(** ** What the schemas require and let through *)

(** An object that lacks a field its schema requires is refused. *)
Lemma zparse_missing_required (shape : list (string * zschema)) (o : obj)
    (k : string) :
  In k (required_fields (ZObject shape)) ->
  obj_get k o = None ->
  zparse (ZObject shape) (JObject o) = None.
Proof.
  unfold required_fields. simpl zshape. intros Hin Hget. simpl.
  match goal with
  | |- match ?fields shape with _ => _ end = _ => set (go := fields)
  end.
  assert (E : go shape = None); [|now rewrite E].
  induction shape as [|[k0 fs] shape IH]; simpl in Hin; [contradiction|].
  simpl.
  destruct (is_optional fs) eqn:Eo; simpl in Hin.
  - rewrite (IH Hin). destruct (obj_get k0 o); [|reflexivity].
    now destruct (zparse fs j).
  - destruct Hin as [->|Hin].
    + now rewrite Hget.
    + rewrite (IH Hin). destruct (obj_get k0 o); [|reflexivity].
      now destruct (zparse fs j).
Qed.

(** X12 (lines 216-241, 264-277, 314-334, 363-406): each schema requires
    one field, [url] ([query] for search), and none inside
    [scrapeOptions]; a call whose argument lacks the required field is
    refused before the handler runs: it throws and adds nothing to the
    trace. *)
Theorem missing_required_field_is_rejected (this : host) (itemIndex : nat)
    (op k : string) (o : obj) (t0 t : list event) :
  In op operations ->
  getNodeParameter this "toolType" itemIndex "scrape" = op ->
  In k (required_fields (schema_of op)) ->
  obj_get k o = None ->
  (exists tool e,
     supplyData this itemIndex t0 = (Ok {| response := tool |}, t0)
     /\ tool_call tool (JObject o) t = (Throw e, t))
  /\ map (fun op' => required_fields (schema_of op')) operations
     = [["url"]; ["url"]; ["query"]; ["url"]]
  /\ option_map required_fields (zfield "scrapeOptions" search_schema) = Some []
  /\ option_map required_fields (zfield "scrapeOptions" crawl_schema) = Some [].
Proof.
  intros Hin Hop Hk Hget. split; [|repeat split].
  do 2 eexists.
  split; [apply (supplyData_known this itemIndex t0 op Hin Hop)|].
  unfold tool_call. cbn [schema].
  assert (E : zparse (schema_of op) (JObject o) = None).
  { each_operation Hin;
      exact (zparse_missing_required _ o k Hk Hget). }
  rewrite E. reflexivity.
Qed.

Lemma missing_required_field_is_rejected_witness :
  (exists tool e,
     supplyData (example_host "scrape" "" (Ok JNull)) 0 []
     = (Ok {| response := tool |}, [])
     /\ tool_call tool (JObject [("formats", JArray [JString "markdown"])]) []
        = (Throw e, []))
  /\ map (fun op' => required_fields (schema_of op')) operations
     = [["url"]; ["url"]; ["query"]; ["url"]]
  /\ option_map required_fields (zfield "scrapeOptions" search_schema) = Some []
  /\ option_map required_fields (zfield "scrapeOptions" crawl_schema) = Some [].
Proof.
  apply (missing_required_field_is_rejected
           (example_host "scrape" "" (Ok JNull)) 0 "scrape" "url"
           [("formats", JArray [JString "markdown"])] [] []).
  - simpl. tauto.
  - reflexivity.
  - simpl. tauto.
  - reflexivity.
Defined.

(** X13 (lines 216-241, 264-277, 314-334, 363-406, 37-40): an argument
    that holds nothing but the required field, a non-empty string, is
    accepted as it is, and the call sends one request whose body is the
    marker followed by that field. *)
Theorem minimal_argument_is_forwarded (this : host) (itemIndex : nat)
    (op k s : string) (c : credentials) (t0 t : list event) :
  In op operations ->
  getNodeParameter this "toolType" itemIndex "scrape" = op ->
  getCredentials this "firecrawlApi" = Ok c ->
  required_fields (schema_of op) = [k] ->
  s <> "" ->
  zparse (schema_of op) (JObject [(k, JString s)])
  = Some (JObject [(k, JString s)])
  /\ exists tool es,
       supplyData this itemIndex t0 = (Ok {| response := tool |}, t0)
       /\ snd (tool_call tool (JObject [(k, JString s)]) t) = (t ++ es)%list
       /\ map body (http_requests es)
          = [[("integration", JString "n8n-tool"); (k, JString s)]].
Proof.
  intros Hin Hop Hc Hk Hs.
  assert (E : zparse (schema_of op) (JObject [(k, JString s)])
              = Some (JObject [(k, JString s)])).
  { destruct s as [|a s']; [congruence|].
    each_operation Hin; injection Hk as <-; reflexivity. }
  split; [exact E|].
  destruct (createToolHandler_trace this (getNode this) op [(k, JString s)] t)
    as (es & Hes & Hreq).
  rewrite Hc in Hreq.
  eexists. exists es.
  split; [apply (supplyData_known this itemIndex t0 op Hin Hop)|].
  split.
  - unfold tool_call. cbn [schema func]. now rewrite E.
  - rewrite Hreq. simpl. f_equal.
    each_operation Hin; injection Hk as <-; reflexivity.
Qed.

Lemma minimal_argument_is_forwarded_witness :
  zparse (schema_of "search") (JObject [("query", JString "firecrawl")])
  = Some (JObject [("query", JString "firecrawl")])
  /\ exists tool es,
       supplyData (example_host "search" "" (Ok JNull)) 0 []
       = (Ok {| response := tool |}, [])
       /\ snd (tool_call tool (JObject [("query", JString "firecrawl")]) [])
          = ([] ++ es)%list
       /\ map body (http_requests es)
          = [[("integration", JString "n8n-tool");
              ("query", JString "firecrawl")]].
Proof.
  apply (minimal_argument_is_forwarded
           (example_host "search" "" (Ok JNull)) 0 "search" "query"
           "firecrawl" example_credentials [] []).
  - simpl. tauto.
  - reflexivity.
  - reflexivity.
  - reflexivity.
  - discriminate.
Defined.

Lemma spread_keys (source target : obj) (k : string) (v : json) :
  obj_get k (spread target source) = Some v ->
  In k (map fst target) \/ In k (map fst source).
Proof.
  rewrite obj_get_spread. destruct (obj_get k source) as [w|] eqn:E.
  - intros _. right. now apply (obj_get_some_in k source w).
  - intros H. left. now apply (obj_get_some_in k target v).
Qed.

(** X14 (lines 37-40, 216-241, 264-277, 314-334, 363-406): in a call
    through the tool, the request body carries [integration: "n8n-tool"]
    whatever the argument holds, since no schema has such a field, and
    every other property of the body is a field of the operation's
    schema with the validated value. *)
Theorem tool_request_body_stays_within_schema (this : host) (itemIndex : nat)
    (op : string) (arg : json) (parsed : obj) (c : credentials)
    (t0 t : list event) :
  In op operations ->
  getNodeParameter this "toolType" itemIndex "scrape" = op ->
  getCredentials this "firecrawlApi" = Ok c ->
  zparse (schema_of op) arg = Some (JObject parsed) ->
  exists tool es req,
    supplyData this itemIndex t0 = (Ok {| response := tool |}, t0)
    /\ snd (tool_call tool arg t) = (t ++ es)%list
    /\ http_requests es = [req]
    /\ obj_get "integration" (body req) = Some (JString "n8n-tool")
    /\ (forall k v,
          obj_get k (body req) = Some v ->
          k <> "integration" ->
          In k (map fst (zshape (schema_of op)))
          /\ obj_get k parsed = Some v).
Proof.
  intros Hin Hop Hc Hparse.
  destruct (createToolHandler_trace this (getNode this) op parsed t)
    as (es & Hes & Hreq).
  rewrite Hc in Hreq.
  eexists. exists es, (firecrawl_request c op parsed).
  split; [apply (supplyData_known this itemIndex t0 op Hin Hop)|].
  split; [unfold tool_call; cbn [schema func]; now rewrite Hparse|].
  split; [exact Hreq|].
  split; [exact (validated_request_carries_marker op arg parsed Hin Hparse)|].
  intros k v Hget Hk. simpl in Hget.
  rewrite (request_body_other k parsed Hk) in Hget.
  split; [|exact Hget].
  apply obj_get_some_in in Hget.
  destruct arg as [| | | | |o];
    try (each_operation Hin; discriminate Hparse).
  each_operation Hin; exact (zparse_object_keys _ o parsed Hparse _ Hget).
Qed.

Lemma tool_request_body_stays_within_schema_witness :
  exists tool es req,
    supplyData (example_host "scrape" "" (Ok JNull)) 0 []
    = (Ok {| response := tool |}, [])
    /\ snd (tool_call tool (JObject marked_input) []) = ([] ++ es)%list
    /\ http_requests es = [req]
    /\ obj_get "integration" (body req) = Some (JString "n8n-tool")
    /\ (forall k v,
          obj_get k (body req) = Some v ->
          k <> "integration" ->
          In k (map fst (zshape (schema_of "scrape")))
          /\ obj_get k [("url", JString "https://example.com")] = Some v).
Proof.
  apply (tool_request_body_stays_within_schema
           (example_host "scrape" "" (Ok JNull)) 0 "scrape"
           (JObject marked_input) [("url", JString "https://example.com")]
           example_credentials [] []).
  - simpl. tauto.
  - reflexivity.
  - reflexivity.
  - reflexivity.
Defined.

(** X15 (lines 267-270, 377): the [sitemap] fields of the map and the
    crawl schemas list the same three modes in different orders; both
    are optional and accept exactly the same values. *)
Theorem sitemap_modes_agree :
  exists in_map in_crawl,
    zfield "sitemap" map_schema = Some in_map
    /\ zfield "sitemap" crawl_schema = Some in_crawl
    /\ ztype in_map = ZEnum ["include"; "skip"; "only"]
    /\ ztype in_crawl = ZEnum ["skip"; "include"; "only"]
    /\ is_optional in_map = true
    /\ is_optional in_crawl = true
    /\ (forall v, zparse in_map v = zparse in_crawl v)
    /\ (forall v, zparse in_map v = Some v
                  <-> v = JString "include" \/ v = JString "skip"
                      \/ v = JString "only").
Proof.
  do 2 eexists.
  split; [reflexivity|]. split; [reflexivity|]. split; [reflexivity|].
  split; [reflexivity|]. split; [reflexivity|]. split; [reflexivity|].
  split.
  - intros v. destruct v; try reflexivity.
    unfold string_in. simpl.
    now destruct (s =? "include")%string, (s =? "skip")%string.
  - intros v. simpl. destruct v; simpl;
      try (split; [discriminate | intros [H|[H|H]]; discriminate H]).
    unfold string_in. simpl.
    destruct (String.eqb_spec s "include") as [->|H1]; [tauto|].
    destruct (String.eqb_spec s "skip") as [->|H2]; [tauto|].
    destruct (String.eqb_spec s "only") as [->|H3]; [tauto|].
    simpl. split; [discriminate|].
    intros [H|[H|H]]; injection H as H; congruence.
Qed.

(** An object with a field that its schema refuses is refused. *)
Lemma zparse_invalid_field (shape : list (string * zschema)) (o : obj)
    (k : string) (fs : zschema) (x : json) :
  assoc k shape = Some fs ->
  obj_get k o = Some x ->
  zparse fs x = None ->
  zparse (ZObject shape) (JObject o) = None.
Proof.
  intros Hk Hget Hbad. simpl.
  match goal with
  | |- match ?fields shape with _ => _ end = _ => set (go := fields)
  end.
  assert (E : go shape = None); [|now rewrite E].
  induction shape as [|[k0 fs0] shape IH]; simpl in Hk; [discriminate|].
  simpl. destruct (String.eqb_spec k k0) as [<-|Hne].
  - injection Hk as ->. now rewrite Hget, Hbad.
  - rewrite (IH Hk). destruct (obj_get k0 o) as [y|].
    + now destruct (zparse fs0 y).
    + now destruct (is_optional fs0).
Qed.

(** X16 (lines 216-241, 264-277, 314-334, 363-406): a call whose
    argument gives a field of the schema a value that the field's schema
    refuses is refused as a whole, before the handler runs: it throws and
    adds nothing to the trace. *)
Theorem invalid_field_is_rejected (this : host) (itemIndex : nat)
    (op k : string) (fs : zschema) (o : obj) (x : json)
    (t0 t : list event) :
  In op operations ->
  getNodeParameter this "toolType" itemIndex "scrape" = op ->
  zfield k (schema_of op) = Some fs ->
  obj_get k o = Some x ->
  zparse fs x = None ->
  exists tool e,
    supplyData this itemIndex t0 = (Ok {| response := tool |}, t0)
    /\ tool_call tool (JObject o) t = (Throw e, t).
Proof.
  intros Hin Hop Hk Hget Hbad.
  do 2 eexists.
  split; [apply (supplyData_known this itemIndex t0 op Hin Hop)|].
  unfold tool_call. cbn [schema].
  assert (E : zparse (schema_of op) (JObject o) = None).
  { each_operation Hin;
      exact (zparse_invalid_field _ o k fs x Hk Hget Hbad). }
  rewrite E. reflexivity.
Qed.

Lemma invalid_field_is_rejected_witness :
  exists tool e,
    supplyData (example_host "crawl" "" (Ok JNull)) 0 []
    = (Ok {| response := tool |}, [])
    /\ tool_call tool
         (JObject [("url", JString "https://example.com");
                   ("limit", JString "20")]) []
       = (Throw e, []).
Proof.
  apply (invalid_field_is_rejected (example_host "crawl" "" (Ok JNull)) 0
           "crawl" "limit"
           (ZDescribe (ZOptional ZNumber) "Maximum number of pages to crawl")
           [("url", JString "https://example.com"); ("limit", JString "20")]
           (JString "20") [] []).
  - simpl. tauto.
  - reflexivity.
  - reflexivity.
  - reflexivity.
  - reflexivity.
Defined.

(** ** What an invocation depends on *)

(** X18 (lines 25, 84-89, 169-187): an invocation depends on the host
    only through the credentials the node declares, the answer of the
    HTTP helper and the run index: two hosts that agree on these give
    the same result and the same trace, whatever their parameters and
    their other credentials. *)
Theorem only_declared_credentials_are_read (this1 this2 : host)
    (node : INode) (op : string) (input : obj) (t : list event) :
  (forall credential,
     In credential
        (map credential_name (node_credentials FirecrawlTool_description)) ->
     getCredentials this1 credential = getCredentials this2 credential) ->
  (forall options, httpRequest this1 options = httpRequest this2 options) ->
  runIndex this1 t = runIndex this2 t ->
  createToolHandler this1 node op input t
  = createToolHandler this2 node op input t.
Proof.
  intros Hc Hh Hi.
  assert (E : getCredentials this1 "firecrawlApi"
              = getCredentials this2 "firecrawlApi")
    by (apply Hc; simpl; tauto).
  unfold createToolHandler, makeFirecrawlRequest, helpers_httpRequest,
    addInputData, addOutputData, bind, try_catch, await, emit, ret, throw.
  rewrite E, Hi.
  destruct (getCredentials this2 "firecrawlApi"); [rewrite Hh|]; reflexivity.
Qed.

Lemma only_declared_credentials_are_read_witness :
  createToolHandler (example_host "map" "" (Ok map_answer)) example_node
    "map" map_input []
  = createToolHandler (single_store_host (Ok map_answer)) example_node
      "map" map_input [].
Proof.
  apply (only_declared_credentials_are_read
           (example_host "map" "" (Ok map_answer))
           (single_store_host (Ok map_answer)) example_node "map" map_input []).
  - intros credential [<-|[]]. reflexivity.
  - intros options. reflexivity.
  - reflexivity.
Defined.
